(** * webhook-react-tag: the swig [react] tag, embedded and verified

    A shallow embedding of [src/index.js]: the tag compiler ([compile]), the
    tag parser's token handlers ([parse]), the render bridge
    ([renderReactComponentToString]), the component registry
    ([extendComponents]) and the function that the code emitted by [compile]
    denotes at render time.

    Conventions of the embedding.
    - JavaScript values are the type [jsval]; an object is the list of its own
      enumerable string-keyed data properties in enumeration order, with
      [Object.prototype] as prototype.  Property names that reach an inherited
      accessor ([__proto__]) are not part of the input space.
    - A function is the opaque [VFun]: it has no enumerable properties, and
      calling one is left to a parameter of the render-time definitions.
    - A computation that can throw returns a [result].
    - The argument loop of [compile] runs on fuel; [args_loop_total] shows
      that the fuel [compile] supplies is always enough. *)

From stdpp Require Import base option list strings pretty gmap.
From Stdlib Require Import ZArith Ascii String Lia.

Local Set Warnings "-register-all".

(** ** JavaScript values and outcomes *)

Inductive jsval : Type :=
| VUndefined
| VNull
| VBool (b : bool)
| VNum (n : Z)
| VStr (s : string)
| VArr (items : list jsval)
| VObj (props : list (string * jsval))
| VFun (id : nat).

Inductive result (A : Type) : Type :=
| Normal (a : A)
| Throw (msg : string).
Arguments Normal {A} a.
Arguments Throw {A} msg.

#[global] Instance result_ret : MRet result := fun A a => Normal a.
#[global] Instance result_bind : MBind result := fun A B k r =>
  match r with
  | Normal a => k a
  | Throw msg => Throw msg
  end.

(** The double quote character, and strings built around it. *)
Definition dq : string := String "034"%char EmptyString.
Definition quot : string := "&quot;".

(** [typeof v]. *)
Definition typeof (v : jsval) : string :=
  match v with
  | VUndefined => "undefined"
  | VNull => "object"
  | VBool _ => "boolean"
  | VNum _ => "number"
  | VStr _ => "string"
  | VArr _ => "object"
  | VObj _ => "object"
  | VFun _ => "function"
  end.

(** ToBoolean. *)
Definition truthy (v : jsval) : bool :=
  match v with
  | VUndefined | VNull => false
  | VBool b => b
  | VNum n => negb (n =? 0)%Z
  | VStr s => negb (String.eqb s "")
  | VArr _ | VObj _ | VFun _ => true
  end.

(** Own data property lookup in a property list. *)
Fixpoint own_lookup (k : string) (props : list (string * jsval)) : option jsval :=
  match props with
  | [] => None
  | (k', v) :: rest => if String.eqb k k' then Some v else own_lookup k rest
  end.

(** ** Tokens of the argument list

    [args.shift()] on an array of strings: the head, or [undefined] (here
    [None]) on the empty array. *)

Definition shift (args : list string) : option string * list string :=
  match args with
  | [] => (None, [])
  | a :: rest => (Some a, rest)
  end.

(** String concatenation with a possibly undefined operand. *)
Definition show (o : option string) : string :=
  match o with
  | Some s => s
  | None => "undefined"
  end.

Definition STR_WITH : string := "with".
Definition STR_OBJ_OPEN : string := "{".
Definition STR_OBJ_CLOSE : string := "}".
Definition STR_IN : string := "in".
Definition name : string := "react".
Definition ends : bool := false.
Definition blockLevel : bool := false.

(** ** The tag compiler *)

(** The inner loop of [compile] (lines 82-95): [while ((objPart = args.shift()))].
    The first component is [Some objParts] when the loop left through
    [props = objParts.slice(0); break], and [None] when it ended on an
    exhausted array or on an empty (falsy) token; the second is what is left
    of [args]. *)
Fixpoint scan_object (args : list string) (objOpenings objClosings : nat)
    (objParts : string) : option string * list string :=
  match args with
  | [] => (None, [])
  | objPart :: rest =>
      if String.eqb objPart "" then (None, rest)
      else
        let objOpenings' :=
          if String.eqb objPart STR_OBJ_OPEN then S objOpenings else objOpenings in
        let objClosings' :=
          if String.eqb objPart STR_OBJ_OPEN then objClosings
          else if String.eqb objPart STR_OBJ_CLOSE then S objClosings
          else objClosings in
        let objParts' := objParts +:+ objPart in
        if String.eqb objPart STR_OBJ_CLOSE && Nat.eqb objOpenings' objClosings'
        then (Some objParts', rest)
        else scan_object rest objOpenings' objClosings' objParts'
  end.

Definition unexpected_argument (arg : string) : string :=
  "Unexpected argument " +:+ dq +:+ arg +:+ dq +:+ " in react tag.".

(** The outer loop (lines 74-106): [while ((arg = args.shift())) switch (arg)].
    It returns the final [props] and [container], or the thrown error;
    [None] only when the fuel runs out. *)
Fixpoint args_loop (fuel : nat) (args : list string)
    (props container : option string)
    : option (result (option string * option string)) :=
  match fuel with
  | O => None
  | S fuel' =>
      match args with
      | [] => Some (Normal (props, container))
      | arg :: args1 =>
          if String.eqb arg "" then Some (Normal (props, container))
          else if String.eqb arg STR_WITH then
            let '(props1, args2) := shift args1 in
            if bool_decide (props1 = Some STR_OBJ_OPEN) then
              let '(found, args3) := scan_object args2 1 0 STR_OBJ_OPEN in
              let props2 := match found with
                            | Some objParts => Some objParts
                            | None => props1
                            end in
              args_loop fuel' args3 props2 container
            else args_loop fuel' args2 props1 container
          else if String.eqb arg STR_IN then
            let '(container1, args2) := shift args1 in
            args_loop fuel' args2 props container1
          else Some (Throw (unexpected_argument arg))
      end
  end.

(** The argument loop with the fuel [compile] gives it. *)
Definition run_args (args : list string) (props container : option string)
    : option (result (option string * option string)) :=
  args_loop (S (List.length args)) args props container.

(** Lines 109-130: the emitted statement. *)
Definition emit (componentName props container : option string) : string :=
  "_output += (function(props, container) {"
  +:+ "props = props || {};"
  +:+ "container = container || { tag: 'div' };"
  +:+ "var __o = '<' + container.tag;"
  +:+ "var __p = JSON.stringify(props).replace(/" +:+ dq +:+ "/g, " +:+ dq +:+ "&quot;" +:+ dq +:+ ");"
  +:+ "for (var key in container) {"
  +:+ "var val;"
  +:+ "if (container.hasOwnProperty(key) && key !== 'tag') {"
  +:+ "val = container[key].replace('" +:+ dq +:+ "', '&quot;');"
  +:+ "__o += ' ' + key + '=" +:+ dq +:+ "' + val + '" +:+ dq +:+ "';"
  +:+ "}"
  +:+ "}"
  +:+ "__o += ' data-react-component=" +:+ dq +:+ show componentName +:+ dq +:+ "';"
  +:+ "__o += ' data-react-props=" +:+ dq +:+ "' + __p + '" +:+ dq +:+ ">';"
  +:+ "__o += _ext.react('" +:+ show componentName +:+ "', props);"
  +:+ "__o += '</' + container.tag + '>';"
  +:+ "return __o;"
  +:+ "})(" +:+ show props +:+ ", " +:+ show container +:+ ");" +:+ String "010"%char EmptyString.

(** [options.reactComponentRoot]: reading a property of [undefined] or [null]
    throws; a primitive or a function has no such property. *)
Definition get_reactComponentRoot (options : jsval) : result jsval :=
  match options with
  | VUndefined | VNull =>
      Throw "TypeError: Cannot read properties of undefined (reading 'reactComponentRoot')"
  | VObj props =>
      Normal (match own_lookup "reactComponentRoot" props with
              | Some v => v
              | None => VUndefined
              end)
  | _ => Normal VUndefined
  end.

(** [compile(compiler, args, content, parents, options)]. *)
Definition compile (compiler : jsval) (args : list string)
    (content parents options : jsval) : option (result string) :=
  match get_reactComponentRoot options with
  | Throw msg => Some (Throw msg)
  | Normal root =>
      let componentRoot := if truthy root then root else VStr "./" in
      let '(componentName, args1) := shift args in
      match run_args args1 None None with
      | None => None
      | Some (Throw msg) => Some (Throw msg)
      | Some (Normal (props, container)) =>
          Some (Normal (emit componentName props container))
      end
  end.

(** ** The tag parser *)

(** The token types of the host lexer; the tag installs handlers for
    [STRING] and [VAR] only. *)
Inductive token_type : Type := STRING | VAR | OTHER.

Record token : Type := Token { type : token_type; match_ : string }.

(** What a handler returns: [return;] is [RetUndefined]. *)
Inductive handler_return : Type :=
| RetUndefined
| RetBool (b : bool).

(** The host parser hands a token on to its own grammar exactly when the
    handler's return value is truthy. *)
Definition passes_through (r : handler_return) : bool :=
  match r with
  | RetUndefined => false
  | RetBool b => b
  end.

(** The closure variable [componentName] and the output array [this.out]. *)
Record parse_state : Type :=
  ParseState { componentName : option string; out : list string }.

Definition parse_init (out0 : list string) : parse_state :=
  ParseState None out0.

(** [!componentName]: true for [undefined] and for the empty string. *)
Definition name_unset (st : parse_state) : bool :=
  match componentName st with
  | None => true
  | Some s => String.eqb s ""
  end.

Definition is_quote (c : ascii) : bool :=
  Ascii.eqb c "'"%char || Ascii.eqb c "034"%char.

(** Drop the last character when it is a quote: the second alternative of
    the regular expression of line 144, anchored at the end. *)
Fixpoint strip_trailing_quote (s : string) : string :=
  match s with
  | EmptyString => EmptyString
  | String c EmptyString => if is_quote c then EmptyString else s
  | String c rest => String c (strip_trailing_quote rest)
  end.

(** Line 144, the global replace on [token.match]: a quote character (single
    or double) in first position goes, then a quote character in last
    position of what follows it. *)
Definition strip_quotes (s : string) : string :=
  match s with
  | EmptyString => EmptyString
  | String c rest =>
      if is_quote c then strip_trailing_quote rest
      else strip_trailing_quote s
  end.

(** Lines 142-150, the [types.STRING] handler. *)
Definition on_STRING (st : parse_state) (tok : token)
    : parse_state * handler_return :=
  if name_unset st then
    let componentName' := strip_quotes (match_ tok) in
    (ParseState (Some componentName') (out st ++ [componentName']), RetUndefined)
  else (st, RetBool true).

(** Lines 152-164, the [types.VAR] handler. *)
Definition on_VAR (st : parse_state) (tok : token)
    : parse_state * handler_return :=
  if name_unset st then
    (ParseState (Some (match_ tok)) (out st), RetBool true)
  else if String.eqb (match_ tok) STR_WITH || String.eqb (match_ tok) STR_IN then
    (ParseState (componentName st) (out st ++ [match_ tok]), RetBool false)
  else (st, RetBool true).

(** Dispatch on the token type; [None] when the tag has no handler for it
    and the host parser proceeds on its own. *)
Definition handle (st : parse_state) (tok : token)
    : parse_state * option handler_return :=
  match type tok with
  | STRING => let '(st', r) := on_STRING st tok in (st', Some r)
  | VAR => let '(st', r) := on_VAR st tok in (st', Some r)
  | OTHER => (st, None)
  end.

(** ** The component registry *)

(** [Object.assign(target, source)] on the registry: every own enumerable
    property of [source] is set on [target], in order; [null] has none, an
    array has its indices. *)
Definition assign_props (target : gmap string jsval)
    (props : list (string * jsval)) : gmap string jsval :=
  foldl (fun m kv => <[kv.1 := kv.2]> m) target props.

Definition index_props (items : list jsval) : list (string * jsval) :=
  imap (fun i v => (pretty i, v)) items.

Definition own_props (v : jsval) : list (string * jsval) :=
  match v with
  | VObj props => props
  | VArr items => index_props items
  | _ => []
  end.

Definition Object_assign (target : gmap string jsval) (source : jsval)
    : gmap string jsval :=
  assign_props target (own_props source).

Definition expects_objects : string :=
  "`extendComponents` expects objects to be passed in.".

(** Lines 213-222.  The registry is module state: the first component is
    the registry as the call leaves it, also when it throws. *)
Fixpoint extendComponents (components : gmap string jsval)
    (arguments : list jsval) : gmap string jsval * result unit :=
  match arguments with
  | [] => (components, Normal tt)
  | componentObject :: rest =>
      if negb (String.eqb (typeof componentObject) "object") then
        (components, Throw expects_objects)
      else extendComponents (Object_assign components componentObject) rest
  end.

(** ** Strings at render time *)

Definition dqc : ascii := "034"%char.

(** [s.replace(/double-quote/g, "&quot;")]: every double quote. *)
Fixpoint replace_all_dq (s : string) : string :=
  match s with
  | EmptyString => EmptyString
  | String c rest =>
      if Ascii.eqb c dqc then quot +:+ replace_all_dq rest
      else String c (replace_all_dq rest)
  end.

(** [s.replace('double-quote', '&quot;')], a string pattern: the first
    occurrence only. *)
Fixpoint replace_first_dq (s : string) : string :=
  match s with
  | EmptyString => EmptyString
  | String c rest =>
      if Ascii.eqb c dqc then quot +:+ rest
      else String c (replace_first_dq rest)
  end.

(** Reversing the quote escaping, as a reader of the markup does it: every
    occurrence of [&quot;], scanning from the left, becomes a double quote.
    [skip] counts the characters of a match still to be dropped. *)
Fixpoint unescape_from (skip : nat) (s : string) : string :=
  match s with
  | EmptyString => EmptyString
  | String c rest =>
      match skip with
      | S k => unescape_from k rest
      | O =>
          if String.prefix quot s then String dqc (unescape_from 5 rest)
          else String c (unescape_from 0 rest)
      end
  end.

Definition unescape_quot (s : string) : string := unescape_from 0 s.

(** [s] occurs in [t]. *)
Definition occurs_in (s t : string) : Prop :=
  exists pre post, t = pre +:+ s +:+ post.

(** Does [&quot;] occur in [s]? *)
Fixpoint has_quot (s : string) : bool :=
  match s with
  | EmptyString => false
  | String _ rest => String.prefix quot s || has_quot rest
  end.

(** ** JSON.stringify on data values *)

Definition hex_digit (n : nat) : ascii :=
  match n with
  | 0 => "0" | 1 => "1" | 2 => "2" | 3 => "3" | 4 => "4" | 5 => "5"
  | 6 => "6" | 7 => "7" | 8 => "8" | 9 => "9" | 10 => "a" | 11 => "b"
  | 12 => "c" | 13 => "d" | 14 => "e" | _ => "f"
  end%char.

(** QuoteJSONString, one character. *)
Definition json_quote_char (c : ascii) : string :=
  let n := nat_of_ascii c in
  if Nat.eqb n 8 then "\b"
  else if Nat.eqb n 9 then "\t"
  else if Nat.eqb n 10 then "\n"
  else if Nat.eqb n 12 then "\f"
  else if Nat.eqb n 13 then "\r"
  else if Nat.eqb n 34 then String "\"%char dq
  else if Nat.eqb n 92 then "\\"
  else if Nat.ltb n 32 then
    "\u00" +:+ String (hex_digit (n / 16)) (String (hex_digit (n mod 16)) EmptyString)
  else String c EmptyString.

Fixpoint json_quote_chars (s : string) : string :=
  match s with
  | EmptyString => EmptyString
  | String c rest => json_quote_char c +:+ json_quote_chars rest
  end.

Definition json_quote (s : string) : string :=
  dq +:+ json_quote_chars s +:+ dq.

(** [JSON.stringify(v)] without indentation; [None] is the [undefined] it
    returns for [undefined] and for a function.  In an array such an element
    is written [null], in an object the property is left out.  A [VNum] is
    an integer in the range that prints in plain decimal; values with a
    callable [toJSON] are outside the embedding. *)
Fixpoint JSON_stringify (v : jsval) : option string :=
  match v with
  | VUndefined => None
  | VFun _ => None
  | VNull => Some "null"
  | VBool b => Some (if b then "true" else "false")
  | VNum n => Some (pretty n)
  | VStr s => Some (json_quote s)
  | VArr items =>
      let fix elements (l : list jsval) : list string :=
        match l with
        | [] => []
        | x :: rest =>
            match JSON_stringify x with
            | Some s => s
            | None => "null"
            end :: elements rest
        end in
      Some ("[" +:+ String.concat "," (elements items) +:+ "]")
  | VObj props =>
      let fix members (l : list (string * jsval)) : list string :=
        match l with
        | [] => []
        | (k, x) :: rest =>
            match JSON_stringify x with
            | Some s => (json_quote k +:+ ":" +:+ s) :: members rest
            | None => members rest
            end
        end in
      Some ("{" +:+ String.concat "," (members props) +:+ "}")
  end.

(** The text a component name must have for the single-quoted literals of
    the emitted code to denote it: no quote that ends the literal, no
    backslash and no line terminator. *)
Definition literal_safe_char (c : ascii) : bool :=
  negb (Ascii.eqb c "'"%char || Ascii.eqb c "\"%char
        || Ascii.eqb c "010"%char || Ascii.eqb c "013"%char).

Fixpoint literal_safe (s : string) : bool :=
  match s with
  | EmptyString => true
  | String c rest => literal_safe_char c && literal_safe rest
  end.

(** ** Render time: the bridge and the emitted function *)

Section RenderTime.

(** [ReactDOMServer.renderToString(React.createElement(Component, props))],
    a black box from a component and its props to markup. *)
Variable renderToString : jsval -> jsval -> string.

(** What calling the opaque function [VFun id] on an argument list does. *)
Variable call_function : nat -> list jsval -> result jsval.

(** ToString of an array, an object or a function. *)
Variable ToString_object : jsval -> result string.

(** The properties a plain object inherits from [Object.prototype]. *)
Variable Object_prototype : string -> option jsval.

(** [o.hasOwnProperty(key)] on an object whose own properties [own] looks
    up: the method is found on the object first, so an own property of
    that name shadows the inherited one. *)
Definition call_hasOwnProperty (own : string -> option jsval) (key : string)
    : result bool :=
  match own "hasOwnProperty" with
  | None => Normal (bool_decide (is_Some (own key)))
  | Some (VFun f) => v ← call_function f [VStr key]; Normal (truthy v)
  | Some _ => Throw "TypeError: hasOwnProperty is not a function"
  end.

(** [o[key]] on a plain object. *)
Definition get_property (own : string -> option jsval) (key : string) : jsval :=
  match own key with
  | Some v => v
  | None =>
      match Object_prototype key with
      | Some v => v
      | None => VUndefined
      end
  end.

Definition missing_component (componentName : string) : string :=
  dq +:+ componentName +:+ dq +:+ " component does not exist in components supplied."
  +:+ String "010"%char "      Try extending @risd/webhook-react-tag with an object that includes "
  +:+ componentName +:+ "."
  +:+ String "010"%char "      ie: require('@risd/webhook-react-tag').components( { "
  +:+ componentName +:+ " } )".

(** Lines 179-189.  The result is the returned value with what was written
    to [console.error]. *)
Definition renderReactComponentToString (components : gmap string jsval)
    (componentName : string) (props : jsval) : result (jsval * list string) :=
  found ← call_hasOwnProperty (fun k => components !! k) componentName;
  if found : bool then
    let Component := get_property (fun k => components !! k) componentName in
    Normal (VStr (renderToString Component props), [])
  else Normal (VUndefined, [missing_component componentName]).

(** ToString, as string concatenation applies it. *)
Definition to_str (v : jsval) : result string :=
  match v with
  | VUndefined => Normal "undefined"
  | VNull => Normal "null"
  | VBool b => Normal (if b then "true" else "false")
  | VNum n => Normal (pretty n)
  | VStr s => Normal s
  | VArr _ | VObj _ | VFun _ => ToString_object v
  end.

(** The own enumerable properties [for (var key in container)] visits. *)
Fixpoint char_props (i : nat) (s : string) : list (string * jsval) :=
  match s with
  | EmptyString => []
  | String c rest => (pretty i, VStr (String c EmptyString)) :: char_props (S i) rest
  end.

Definition enumerable_props (container : jsval) : list (string * jsval) :=
  match container with
  | VObj props => props
  | VArr items => index_props items
  | VStr s => char_props 0 s
  | _ => []
  end.

(** [v.replace(double-quote, '&quot;')] for the value [v] of an attribute. *)
Definition call_replace (v : jsval) : result jsval :=
  match v with
  | VStr s => Normal (VStr (replace_first_dq s))
  | VUndefined | VNull =>
      Throw "TypeError: Cannot read properties of undefined (reading 'replace')"
  | VObj props =>
      match get_property (fun k => own_lookup k props) "replace" with
      | VFun f => call_function f [VStr dq; VStr quot]
      | _ => Throw "TypeError: container[key].replace is not a function"
      end
  | _ => Throw "TypeError: container[key].replace is not a function"
  end.

(** Lines 114-120 of the emitted code: the loop over the container's keys,
    appending to [__o]. *)
Fixpoint attribute_loop (own : string -> option jsval)
    (keys : list (string * jsval)) (__o : string) : result string :=
  match keys with
  | [] => Normal __o
  | (key, _) :: rest =>
      isOwn ← call_hasOwnProperty own key;
      if (isOwn : bool) && negb (String.eqb key "tag") then
        val ← call_replace (get_property own key);
        vals ← to_str val;
        attribute_loop own rest (__o +:+ " " +:+ key +:+ "=" +:+ dq +:+ vals +:+ dq)
      else attribute_loop own rest __o
  end.

(** Lines 112-124 of the emitted code: [__o] up to the end of the opening
    tag, for the defaulted [props] and [container]. *)
Definition opening_tag (componentName : string) (props container : jsval)
    : result string :=
  let own := fun k => own_lookup k (enumerable_props container) in
  tag ← to_str (get_property own "tag");
  let __o := "<" +:+ tag in
  __p ← match JSON_stringify props with
         | Some s => Normal (replace_all_dq s)
         | None =>
             Throw "TypeError: Cannot read properties of undefined (reading 'replace')"
         end;
  __o ← attribute_loop own (enumerable_props container) __o;
  let __o := __o +:+ " data-react-component=" +:+ dq +:+ componentName +:+ dq in
  Normal (__o +:+ " data-react-props=" +:+ dq +:+ __p +:+ dq +:+ ">").

(** Line 128: the closing tag. *)
Definition closing_tag (container : jsval) : result string :=
  let own := fun k => own_lookup k (enumerable_props container) in
  tag ← to_str (get_property own "tag");
  Normal ("</" +:+ tag +:+ ">").

(** [props || {}] and [container || { tag: 'div' }]. *)
Definition default_props (propsArg : jsval) : jsval :=
  if truthy propsArg then propsArg else VObj [].

Definition default_container (containerArg : jsval) : jsval :=
  if truthy containerArg then containerArg else VObj [("tag", VStr "div")].

(** The function that the emitted code applies to the evaluated [props]
    and [container] expressions, for a tag whose component name denotes
    [componentName] inside the emitted string literals; [components] is the
    registry the bridge [_ext.react] reads.  The result pairs the fragment
    added to [_output] with what the bridge logged. *)
Definition render_tag (components : gmap string jsval) (componentName : string)
    (propsArg containerArg : jsval) : result (string * list string) :=
  let props := default_props propsArg in
  let container := default_container containerArg in
  __o ← opening_tag componentName props container;
  '(markup, log) ← renderReactComponentToString components componentName props;
  inner ← to_str markup;
  close ← closing_tag container;
  Normal (__o +:+ inner +:+ close, log).

(** Running the code emitted for the component name text [componentName]:
    the single-quoted literals that carry the name denote it only when it
    holds no single quote, backslash or line terminator; other names give
    [None], their emitted text being no program of this embedding. *)
Definition run_emitted (components : gmap string jsval) (componentName : string)
    (propsArg containerArg : jsval) : option (result (string * list string)) :=
  if literal_safe componentName
  then Some (render_tag components componentName propsArg containerArg)
  else None.

End RenderTime.

(** ** Vocabulary of the properties *)

(** The state of the loop is what is left of [args] with the current
    [props] and [container]; [loop_step s s'] is one iteration that neither
    ends the loop nor throws. *)
Definition loop_state : Type := list string * option string * option string.

Inductive loop_step : loop_state -> loop_state -> Prop :=
| step_with_end props container :
    loop_step ([STR_WITH], props, container) ([], None, container)
| step_with_expr p1 args2 props container :
    p1 <> STR_OBJ_OPEN ->
    loop_step (STR_WITH :: p1 :: args2, props, container)
              (args2, Some p1, container)
| step_with_object args2 found args3 props container :
    scan_object args2 1 0 STR_OBJ_OPEN = (found, args3) ->
    loop_step (STR_WITH :: STR_OBJ_OPEN :: args2, props, container)
              (args3, Some (default STR_OBJ_OPEN found), container)
| step_in_end props container :
    loop_step ([STR_IN], props, container) ([], props, None)
| step_in c1 args2 props container :
    loop_step (STR_IN :: c1 :: args2, props, container) (args2, props, Some c1).

Definition run_state (s : loop_state) : option (result (option string * option string)) :=
  run_args s.1.1 s.1.2 s.2.

(** All consumed tokens, concatenated in order. *)
Fixpoint concat_tokens (l : list string) : string :=
  match l with
  | [] => ""
  | t :: rest => t +:+ concat_tokens rest
  end.

Fixpoint count_token (t : string) (l : list string) : nat :=
  match l with
  | [] => 0
  | x :: rest => (if String.eqb x t then 1 else 0) + count_token t rest
  end.

(** With [o] openings and [c] closings counted so far, no closing brace
    inside [body] is consumed at a point where the counts are equal. *)
Definition no_balance_within (o c : nat) (body : list string) : Prop :=
  forall pre post, body = pre ++ STR_OBJ_CLOSE :: post ->
    o + count_token STR_OBJ_OPEN pre <> S (c + count_token STR_OBJ_CLOSE pre).

(** [compile] throws the error that names [arg] whenever the argument loop,
    started on the arguments after the component name, comes to dequeue
    [arg] at its top level. *)
Definition throws_on_top_level_token (arg : string) : Prop :=
  forall compiler name args rest props container content parents o,
    rtc loop_step (args, None, None) (arg :: rest, props, container) ->
    compile compiler (name :: args) content parents (VObj o)
    = Some (Throw (unexpected_argument arg)).

(** [options[k] = v] on the property list of [options]. *)
Fixpoint set_prop (k : string) (v : jsval) (props : list (string * jsval))
    : list (string * jsval) :=
  match props with
  | [] => [(k, v)]
  | (k', v') :: rest =>
      if String.eqb k k' then (k, v) :: rest else (k', v') :: set_prop k v rest
  end.

(** The handler of a first token [tok] names the component by the token's
    text without its quotes and does not signal pass-through. *)
Definition first_token_is_captured (tok : token) : Prop :=
  forall out0 st' r,
    handle (parse_init out0) tok = (st', Some r) ->
    componentName st' = Some (strip_quotes (match_ tok))
    /\ passes_through r = false.

(** An object in the sense of the language: not a primitive, not [null]. *)
Definition is_object (v : jsval) : bool :=
  match v with
  | VArr _ | VObj _ | VFun _ => true
  | _ => false
  end.

(** The last value a property list gives to [k]. *)
Fixpoint last_own (k : string) (props : list (string * jsval)) : option jsval :=
  match props with
  | [] => None
  | (k', v) :: rest =>
      match last_own k rest with
      | Some v' => Some v'
      | None => if String.eqb k k' then Some v else None
      end
  end.

(** The value of [k] in the last of [groups] that has it. *)
Fixpoint last_binding (k : string) (groups : list jsval) : option jsval :=
  match groups with
  | [] => None
  | g :: rest =>
      match last_binding k rest with
      | Some v => Some v
      | None => last_own k (own_props g)
      end
  end.

Definition merge_all (components : gmap string jsval) (groups : list jsval)
    : gmap string jsval :=
  foldl Object_assign components groups.

Definition sample_renderToString (Component props : jsval) : string :=
  "<h1>Hello</h1>".

Definition sample_call_function (id : nat) (args : list jsval) : result jsval :=
  Throw "TypeError: Class constructor cannot be invoked without 'new'".

Definition sample_ToString_object (v : jsval) : result string :=
  Normal "[object Object]".

Definition sample_Object_prototype (k : string) : option jsval :=
  if bool_decide (k ∈ ["constructor"; "hasOwnProperty"; "toString"; "valueOf"])
  then Some (VFun 1000)
  else None.

Definition sample_bridge :=
  renderReactComponentToString sample_renderToString sample_call_function
    sample_Object_prototype.

Definition sample_render :=
  render_tag sample_renderToString sample_call_function sample_ToString_object
    sample_Object_prototype.

Definition sample_registry : gmap string jsval := {["Header" := VFun 0]}.

(** A registry after [components({ hasOwnProperty: 1 })]. *)
Definition shadowed_registry : gmap string jsval := {["hasOwnProperty" := VNum 1]}.

Fixpoint has_dq (s : string) : bool :=
  match s with
  | EmptyString => false
  | String c rest => Ascii.eqb c dqc || has_dq rest
  end.

(** What is left of [s] after the prefix [k]. *)
Fixpoint strip_prefix (k s : string) : option string :=
  match k with
  | EmptyString => Some s
  | String a k' =>
      match s with
      | EmptyString => None
      | String b s' => if Ascii.eqb a b then strip_prefix k' s' else None
      end
  end.

(** The text before the first double quote of [s]. *)
Fixpoint until_dq (s : string) : option string :=
  match s with
  | EmptyString => None
  | String c rest =>
      if Ascii.eqb c dqc then Some EmptyString
      else match until_dq rest with
           | Some v => Some (String c v)
           | None => None
           end
  end.

(** The values that follow an occurrence of [k] in [s], each up to the next
    double quote. *)
Fixpoint attr_values (k s : string) : list string :=
  match s with
  | EmptyString => []
  | String _ rest =>
      match strip_prefix k s with
      | Some r =>
          match until_dq r with
          | Some v => [v]
          | None => []
          end
      | None => []
      end ++ attr_values k rest
  end.

(** An attribute as the markup spells it. *)
Definition attr_open (attr : string) : string := " " +:+ attr +:+ "=" +:+ dq.

Definition attribute (attr value : string) : string :=
  attr_open attr +:+ value +:+ dq.

Definition has_attribute (attr value fragment : string) : Prop :=
  has_dq value = false /\ occurs_in (attribute attr value) fragment.

(** For a decoder [JSON_parse]: running the code emitted for the tag with
    component [n] and props [p], and no [in] clause, gives markup that has
    the component attribute and a props attribute whose value, unescaped,
    decodes to [p]. *)
Definition props_round_trip (JSON_parse : string -> option jsval)
    (renderToString : jsval -> jsval -> string)
    (call_function : nat -> list jsval -> result jsval)
    (ToString_object : jsval -> result string)
    (Object_prototype : string -> option jsval)
    (components : gmap string jsval) (n : string) (p : jsval) : Prop :=
  exists fragment log value,
    run_emitted renderToString call_function ToString_object Object_prototype
      components n p VUndefined = Some (Normal (fragment, log))
    /\ occurs_in (attribute "data-react-component" n) fragment
    /\ has_attribute "data-react-props" value fragment
    /\ JSON_parse (unescape_quot value) = Some p.

(** A pattern without double quote and ampersand is a prefix of the escaped
    text exactly when it is one of the text. *)
Fixpoint plain_pattern (pat : string) : bool :=
  match pat with
  | EmptyString => true
  | String a rest =>
      negb (Ascii.eqb a dqc) && negb (Ascii.eqb a "&"%char) && plain_pattern rest
  end.

(** A decoder that knows the JSON text of one object. *)
Definition sample_JSON_parse (s : string) : option jsval :=
  if String.eqb s ("{" +:+ dq +:+ "name" +:+ dq +:+ ":" +:+ dq +:+ "John" +:+ dq +:+ "}")
  then Some (VObj [("name", VStr "John")])
  else None.

(** Two props objects, the first with the text [&quot;] inside a string. *)
Definition props_with_quot : jsval :=
  VObj [("a", VStr "x&quot;,&quot;b&quot;:&quot;y")].

Definition props_plain : jsval :=
  VObj [("a", VStr "x"); ("b", VStr "y")].

(** Modelled from the spec: the host parser's dispatch, which is not in the
    repository.  Every token goes to the tag's handler for its type when
    there is one; a token whose handler signals pass-through, or that has no
    handler, is then parsed by the host itself, and [host] is what that does
    to the output array. *)
Definition parse_token (host : list string -> token -> list string)
    (st : parse_state) (tok : token) : parse_state :=
  let '(st', r) := handle st tok in
  match r with
  | Some ret =>
      if passes_through ret
      then ParseState (componentName st') (host (out st') tok)
      else st'
  | None => ParseState (componentName st') (host (out st') tok)
  end.

Definition parse_tokens (host : list string -> token -> list string)
    (st : parse_state) (toks : list token) : parse_state :=
  foldl (parse_token host) st toks.

(** A [VAR] token that spells one of the two keywords. *)
Definition is_keyword (tok : token) : bool :=
  match type tok with
  | VAR => String.eqb (match_ tok) STR_WITH || String.eqb (match_ tok) STR_IN
  | _ => false
  end.

(** The attributes the loop of the emitted code writes for string-valued
    properties: every key but [tag], in order, its value with the first
    double quote escaped. *)
Fixpoint attrs_markup (props : list (string * jsval)) : string :=
  match props with
  | [] => ""
  | (k, v) :: rest =>
      (if String.eqb k "tag" then ""
       else match v with
            | VStr s => attribute k (replace_first_dq s)
            | _ => ""
            end) +:+ attrs_markup rest
  end.

(** The number of double quotes in a text. *)
Fixpoint count_dq (s : string) : nat :=
  match s with
  | EmptyString => 0
  | String c rest => (if Ascii.eqb c dqc then 1 else 0) + count_dq rest
  end.

Definition is_digit (c : ascii) : bool :=
  (48 <=? nat_of_ascii c) && (nat_of_ascii c <=? 57).

Definition starts_with_digit (s : string) : bool :=
  match s with
  | EmptyString => false
  | String c _ => is_digit c
  end.

(** A value on which [.replace] is no method, or cannot even be looked up. *)
Definition has_no_replace (v : jsval) : bool :=
  match v with
  | VStr _ | VObj _ => false
  | _ => true
  end.

(** ** Enabling the tag on an engine *)

(** The functions of the module that are handed to the engine. *)
Inductive module_function : Type :=
| FnParse
| FnCompile
| FnExtension.

Section UseTag.

(** The engine instance and its two registration methods, which live in
    the host library: they are parameters, and change the instance. *)
Variable engine : Type.
Variable setExtension : engine -> string -> module_function -> engine.
Variable setTag :
  engine -> string -> module_function -> module_function -> bool -> bool -> engine.

(** [customName || name], for a custom name that is [undefined] or a string. *)
Definition tag_name (customName : option string) : string :=
  match customName with
  | Some s => if String.eqb s "" then name else s
  | None => name
  end.

(** Lines 238-241. *)
Definition useTag (swig : engine) (customName : option string) : engine :=
  let swig1 := setExtension swig name FnExtension in
  setTag swig1 (tag_name customName) FnParse FnCompile ends blockLevel.

End UseTag.

(** An engine that keeps what is registered in two maps. *)
Record sample_engine : Type := SampleEngine {
  extensions : gmap string module_function;
  tags : gmap string (module_function * module_function * bool * bool)
}.

Definition sample_setExtension (e : sample_engine) (k : string)
    (f : module_function) : sample_engine :=
  SampleEngine (<[k := f]> (extensions e)) (tags e).

Definition sample_setTag (e : sample_engine) (k : string)
    (p c : module_function) (e1 b : bool) : sample_engine :=
  SampleEngine (extensions e) (<[k := (p, c, e1, b)]> (tags e)).

(** * Properties *)

(** ** The argument loop always has enough fuel *)

Lemma scan_object_length args o c parts :
  List.length (scan_object args o c parts).2 <= List.length args.
Proof.
  revert o c parts.
  induction args as [|objPart rest IH]; intros o c parts; simpl; [lia|].
  destruct (String.eqb objPart ""); simpl; [lia|].
  match goal with
  | |- context [if ?b then (Some ?x, rest) else ?e] => destruct b; simpl; [lia|]
  end.
  etransitivity; [apply IH|lia].
Qed.

Lemma args_loop_fuel fuel1 : forall fuel2 args props container,
  List.length args < fuel1 -> List.length args < fuel2 ->
  args_loop fuel1 args props container = args_loop fuel2 args props container.
Proof.
  induction fuel1 as [|fuel1 IH]; intros fuel2 args props container H1 H2; [lia|].
  destruct fuel2 as [|fuel2]; [lia|].
  destruct args as [|arg args1]; [reflexivity|].
  simpl in H1, H2. simpl.
  destruct (String.eqb arg ""); [reflexivity|].
  destruct (String.eqb arg STR_WITH).
  - destruct args1 as [|p1 args2]; simpl.
    + apply IH; simpl; lia.
    + case_bool_decide.
      * pose proof (scan_object_length args2 1 0 STR_OBJ_OPEN) as Hlen.
        destruct (scan_object args2 1 0 STR_OBJ_OPEN) as [found args3].
        simpl in *. apply IH; lia.
      * apply IH; simpl in *; lia.
  - destruct (String.eqb arg STR_IN); [|reflexivity].
    destruct args1 as [|c1 args2]; simpl; apply IH; simpl in *; lia.
Qed.

Lemma args_loop_total fuel : forall args props container,
  List.length args < fuel -> is_Some (args_loop fuel args props container).
Proof.
  induction fuel as [|fuel IH]; intros args props container H; [lia|].
  destruct args as [|arg args1]; [by eexists|].
  simpl in H. simpl.
  destruct (String.eqb arg ""); [by eexists|].
  destruct (String.eqb arg STR_WITH).
  - destruct args1 as [|p1 args2]; simpl.
    + apply IH; simpl; lia.
    + case_bool_decide.
      * pose proof (scan_object_length args2 1 0 STR_OBJ_OPEN) as Hlen.
        destruct (scan_object args2 1 0 STR_OBJ_OPEN) as [found args3].
        simpl in *. apply IH; lia.
      * apply IH; simpl in *; lia.
  - destruct (String.eqb arg STR_IN); [|by eexists].
    destruct args1 as [|c1 args2]; simpl; apply IH; simpl in *; lia.
Qed.

(** [compile] never runs out of fuel. *)
Lemma compile_total compiler args content parents options :
  is_Some (compile compiler args content parents options).
Proof.
  unfold compile.
  destruct (get_reactComponentRoot options) as [root|msg]; [|by eexists].
  destruct (shift args) as [componentName args1].
  destruct (args_loop_total (S (List.length args1)) args1 None None) as [r Hr]; [lia|].
  unfold run_args. rewrite Hr.
  destruct r as [[props container]|msg]; by eexists.
Qed.

(** ** One iteration of the argument loop *)

Lemma run_args_step fuel args props container :
  List.length args < fuel ->
  run_args args props container = args_loop fuel args props container.
Proof. intros H. unfold run_args. apply args_loop_fuel; lia. Qed.

Lemma loop_step_run s s' : loop_step s s' -> run_state s = run_state s'.
Proof.
  intros Hstep. unfold run_state.
  destruct Hstep as [props container|p1 args2 props container Hp1
                    |args2 found args3 props container Hscan
                    |props container|c1 args2 props container]; simpl.
  - reflexivity.
  - unfold run_args at 1.
    rewrite (args_loop_fuel _ (S (List.length args2 + 2))) by (simpl; lia).
    simpl. rewrite bool_decide_eq_false_2 by congruence.
    symmetry. apply run_args_step. lia.
  - pose proof (scan_object_length args2 1 0 STR_OBJ_OPEN) as Hlen.
    rewrite Hscan in Hlen. simpl in Hlen.
    unfold run_args at 1.
    rewrite (args_loop_fuel _ (S (List.length args2 + 2))) by (simpl; lia).
    simpl. rewrite Hscan.
    destruct found; simpl; symmetry; apply run_args_step; lia.
  - reflexivity.
  - unfold run_args at 1.
    rewrite (args_loop_fuel _ (S (List.length args2 + 2))) by (simpl; lia).
    simpl. symmetry. apply run_args_step. lia.
Qed.

Lemma run_args_loop_step args props container args' props' container' :
  loop_step (args, props, container) (args', props', container') ->
  run_args args props container = run_args args' props' container'.
Proof. intros H. exact (loop_step_run _ _ H). Qed.

Lemma loop_steps_run s s' : rtc loop_step s s' -> run_state s = run_state s'.
Proof.
  induction 1 as [|s1 s2 s3 Hstep _ IH]; [reflexivity|].
  rewrite <- IH. by apply loop_step_run.
Qed.

(** ** Balanced-brace reconstruction of the props source *)

Lemma str_app_cons (c : ascii) (s t : string) :
  String c s +:+ t = String c (s +:+ t).
Proof. reflexivity. Qed.

Lemma str_app_nil_l (s : string) : "" +:+ s = s.
Proof. reflexivity. Qed.

Lemma str_app_nil_r (s : string) : s +:+ "" = s.
Proof.
  induction s as [|c s IH]; [reflexivity|].
  by rewrite str_app_cons, IH.
Qed.

Lemma str_app_assoc (s t u : string) : (s +:+ t) +:+ u = s +:+ t +:+ u.
Proof.
  induction s as [|c s IH]; [reflexivity|].
  by rewrite !str_app_cons, IH.
Qed.

Lemma no_balance_within_tail o c t body :
  no_balance_within o c (t :: body) ->
  no_balance_within
    ((if String.eqb t STR_OBJ_OPEN then 1 else 0) + o)
    ((if String.eqb t STR_OBJ_CLOSE then 1 else 0) + c) body.
Proof.
  intros H pre post ->. specialize (H (t :: pre) post eq_refl).
  simpl in H. lia.
Qed.

(** One turn of the inner loop on a token that does not stop it. *)
Lemma scan_object_continue t rest o c parts :
  t <> "" ->
  (t = STR_OBJ_CLOSE -> o <> S c) ->
  scan_object (t :: rest) o c parts =
  scan_object rest ((if String.eqb t STR_OBJ_OPEN then 1 else 0) + o)
    ((if String.eqb t STR_OBJ_CLOSE then 1 else 0) + c) (parts +:+ t).
Proof.
  intros Hne Hclose. simpl.
  rewrite (proj2 (String.eqb_neq t "")) by done.
  destruct (String.eqb_spec t STR_OBJ_OPEN) as [->|Hopen]; [reflexivity|].
  destruct (String.eqb_spec t STR_OBJ_CLOSE) as [->|Hcl]; simpl; [|reflexivity].
  rewrite (proj2 (Nat.eqb_neq o (S c))) by auto. reflexivity.
Qed.

Lemma scan_object_balanced body : forall rest o c parts,
  Forall (fun t => t <> "") body ->
  o + count_token STR_OBJ_OPEN body = S (c + count_token STR_OBJ_CLOSE body) ->
  no_balance_within o c body ->
  scan_object (body ++ STR_OBJ_CLOSE :: rest) o c parts =
  (Some (parts +:+ concat_tokens body +:+ STR_OBJ_CLOSE), rest).
Proof.
  induction body as [|t body IH]; intros rest o c parts Hne Hbal Hfirst.
  - simpl in *. replace (o =? S c)%nat with true by (symmetry; apply Nat.eqb_eq; lia).
    reflexivity.
  - inversion Hne as [|? ? Ht Hne']; subst.
    change ((t :: body) ++ STR_OBJ_CLOSE :: rest)
      with (t :: (body ++ STR_OBJ_CLOSE :: rest)).
    rewrite scan_object_continue; [|done|].
    + rewrite IH; [|done| |by apply no_balance_within_tail].
      * simpl. by rewrite !str_app_assoc.
      * simpl in Hbal. lia.
    + intros ->. specialize (Hfirst [] body eq_refl). simpl in Hfirst. lia.
Qed.

Lemma scan_object_exhausted body : forall o c parts,
  Forall (fun t => t <> "") body ->
  no_balance_within o c body ->
  scan_object body o c parts = (None, []).
Proof.
  induction body as [|t body IH]; intros o c parts Hne Hfirst; [reflexivity|].
  inversion Hne as [|? ? Ht Hne']; subst.
  rewrite scan_object_continue; [|done|].
  - apply IH; [done|by apply no_balance_within_tail].
  - intros ->. specialize (Hfirst [] body eq_refl). simpl in Hfirst. lia.
Qed.

Lemma scan_object_empty_token body : forall rest o c parts,
  Forall (fun t => t <> "") body ->
  no_balance_within o c body ->
  scan_object (body ++ "" :: rest) o c parts = (None, rest).
Proof.
  induction body as [|t body IH]; intros rest o c parts Hne Hfirst; [reflexivity|].
  inversion Hne as [|? ? Ht Hne']; subst.
  change ((t :: body) ++ "" :: rest) with (t :: (body ++ "" :: rest)).
  rewrite scan_object_continue; [|done|].
  - apply IH; [done|by apply no_balance_within_tail].
  - intros ->. specialize (Hfirst [] body eq_refl). simpl in Hfirst. lia.
Qed.

(** C2.  When the argument loop meets [with] followed by the token [{], and
    the tokens after it are [body], then a closing brace, then [rest], where
    no token of [body] is empty, the closing brace after [body] is the one
    that makes openings and closings equal, and no closing brace inside
    [body] does: the inner loop stops at that closing brace, not at an inner
    one, leaves [rest] in the array, and the props source it reconstructs is
    the concatenation of [{], every token of [body] and the closing brace;
    the outer loop goes on with [rest] and those props; when nothing
    follows, the loop ends with those props, and [compile] returns the
    emitted statement whose final call passes exactly that text as the
    props expression. *)
Theorem with_object_reconstructs_props (body rest : list string)
    (props container : option string) :
  Forall (fun t => t <> "") body ->
  count_token STR_OBJ_OPEN body = count_token STR_OBJ_CLOSE body ->
  no_balance_within 1 0 body ->
  scan_object (body ++ STR_OBJ_CLOSE :: rest) 1 0 STR_OBJ_OPEN
    = (Some (STR_OBJ_OPEN +:+ concat_tokens body +:+ STR_OBJ_CLOSE), rest)
  /\ run_args (STR_WITH :: STR_OBJ_OPEN :: body ++ STR_OBJ_CLOSE :: rest)
       props container
     = run_args rest
         (Some (STR_OBJ_OPEN +:+ concat_tokens body +:+ STR_OBJ_CLOSE)) container
  /\ run_args (STR_WITH :: STR_OBJ_OPEN :: body ++ [STR_OBJ_CLOSE]) props container
     = Some (Normal
               (Some (STR_OBJ_OPEN +:+ concat_tokens body +:+ STR_OBJ_CLOSE),
                container))
  /\ forall compiler name content parents o,
       compile compiler (name :: STR_WITH :: STR_OBJ_OPEN :: body ++ [STR_OBJ_CLOSE])
         content parents (VObj o)
       = Some (Normal
                 (emit (Some name)
                    (Some (STR_OBJ_OPEN +:+ concat_tokens body +:+ STR_OBJ_CLOSE))
                    None))
       /\ exists code,
            emit (Some name)
              (Some (STR_OBJ_OPEN +:+ concat_tokens body +:+ STR_OBJ_CLOSE)) None
            = code +:+ "})("
              +:+ (STR_OBJ_OPEN +:+ concat_tokens body +:+ STR_OBJ_CLOSE)
              +:+ ", undefined);" +:+ String "010"%char EmptyString.
Proof.
  intros Hne Hbal Hfirst.
  assert (Hscan : forall rest',
    scan_object (body ++ STR_OBJ_CLOSE :: rest') 1 0 STR_OBJ_OPEN
    = (Some (STR_OBJ_OPEN +:+ concat_tokens body +:+ STR_OBJ_CLOSE), rest')).
  { intros rest'. apply scan_object_balanced; [done|simpl; lia|done]. }
  assert (Hstep : forall rest' p c,
    run_args (STR_WITH :: STR_OBJ_OPEN :: body ++ STR_OBJ_CLOSE :: rest') p c
    = run_args rest'
        (Some (STR_OBJ_OPEN +:+ concat_tokens body +:+ STR_OBJ_CLOSE)) c).
  { intros rest' p c. apply run_args_loop_step.
    apply (step_with_object _ (Some _)). apply Hscan. }
  split; [apply Hscan|]. split; [apply Hstep|].
  split; [by rewrite Hstep|].
  intros compiler name0 content parents o. split.
  - unfold compile. simpl. by rewrite Hstep.
  - exists ("_output += (function(props, container) {"
            +:+ "props = props || {};"
            +:+ "container = container || { tag: 'div' };"
            +:+ "var __o = '<' + container.tag;"
            +:+ "var __p = JSON.stringify(props).replace(/" +:+ dq +:+ "/g, " +:+ dq
            +:+ "&quot;" +:+ dq +:+ ");"
            +:+ "for (var key in container) {"
            +:+ "var val;"
            +:+ "if (container.hasOwnProperty(key) && key !== 'tag') {"
            +:+ "val = container[key].replace('" +:+ dq +:+ "', '&quot;');"
            +:+ "__o += ' ' + key + '=" +:+ dq +:+ "' + val + '" +:+ dq +:+ "';"
            +:+ "}"
            +:+ "}"
            +:+ "__o += ' data-react-component=" +:+ dq +:+ name0 +:+ dq +:+ "';"
            +:+ "__o += ' data-react-props=" +:+ dq +:+ "' + __p + '" +:+ dq +:+ ">';"
            +:+ "__o += _ext.react('" +:+ name0 +:+ "', props);"
            +:+ "__o += '</' + container.tag + '>';"
            +:+ "return __o;").
    unfold emit, show. rewrite !str_app_assoc. reflexivity.
Qed.

Ltac split_prefix pre H :=
  repeat (destruct pre as [|? pre];
          [try discriminate H; injection H as <-; intros; simpl; lia
          |injection H as <- H]);
  try (destruct pre; discriminate H).

Ltac tokens_nonempty := repeat (constructor; [discriminate|]); constructor.

Lemma with_object_reconstructs_props_witness :
  scan_object ["a"; ":"; "1"; ","; "b"; ":"; "{"; "c"; ":"; "2"; "}"; "}"]
    1 0 STR_OBJ_OPEN
    = (Some "{a:1,b:{c:2}}", [])
  /\ run_args
       [STR_WITH; "{"; "a"; ":"; "1"; ","; "b"; ":"; "{"; "c"; ":"; "2"; "}"; "}"]
       None None
     = Some (Normal (Some "{a:1,b:{c:2}}", None))
  /\ compile VUndefined
       ["Header"; STR_WITH; "{"; "a"; ":"; "1"; ","; "b"; ":"; "{"; "c"; ":"; "2";
        "}"; "}"]
       VUndefined VUndefined (VObj [])
     = Some (Normal (emit (Some "Header") (Some "{a:1,b:{c:2}}") None)).
Proof.
  destruct (with_object_reconstructs_props
              ["a"; ":"; "1"; ","; "b"; ":"; "{"; "c"; ":"; "2"; "}"] [] None None)
    as (Hscan & _ & Hrun & Hcompile).
  - tokens_nonempty.
  - reflexivity.
  - intros pre post H. split_prefix pre H.
  - split; [exact Hscan|]. split; [exact Hrun|].
    exact (proj1 (Hcompile VUndefined "Header" VUndefined VUndefined [])).
Defined.

(** The same stream through [compile]: the emitted call passes the whole
    object literal as the props expression. *)
Example compile_inline_object :
  compile VUndefined
    ["Header"; "with"; "{"; "a"; ":"; "1"; ","; "b"; ":"; "{"; "c"; ":"; "2"; "}"; "}"]
    VUndefined VUndefined (VObj [])
  = Some (Normal (emit (Some "Header") (Some "{a:1,b:{c:2}}") None)).
Proof. reflexivity. Qed.

(** ** Unexpected tokens at the top level of the argument loop *)

Lemma run_args_unexpected arg rest props container :
  arg <> "" -> arg <> STR_WITH -> arg <> STR_IN ->
  run_args (arg :: rest) props container = Some (Throw (unexpected_argument arg)).
Proof.
  intros H0 Hw Hi. unfold run_args. simpl.
  rewrite (proj2 (String.eqb_neq arg "")), (proj2 (String.eqb_neq arg STR_WITH)),
    (proj2 (String.eqb_neq arg STR_IN)) by done.
  reflexivity.
Qed.

Lemma run_args_empty_token rest props container :
  run_args ("" :: rest) props container = Some (Normal (props, container)).
Proof. reflexivity. Qed.

(** C4, as the code has it.  Every non-empty token other than [with] and
    [in] that the argument loop dequeues at its top level makes [compile]
    throw the error naming that token. *)
Theorem unexpected_token_throws (arg : string) :
  arg <> "" -> arg <> STR_WITH -> arg <> STR_IN ->
  throws_on_top_level_token arg.
Proof.
  intros H0 Hw Hi compiler name0 args rest props container content parents o Hreach.
  unfold compile. simpl.
  apply loop_steps_run in Hreach. unfold run_state in Hreach. simpl in Hreach.
  rewrite Hreach, run_args_unexpected by done. reflexivity.
Qed.

Lemma unexpected_token_throws_witness :
  compile VUndefined ["Header"; "with"; "props"; "oops"; "in"; "'div'"]
    VUndefined VUndefined (VObj [])
  = Some (Throw (unexpected_argument "oops")).
Proof.
  apply (unexpected_token_throws "oops"
           ltac:(discriminate) ltac:(discriminate) ltac:(discriminate)
           VUndefined "Header" ["with"; "props"; "oops"; "in"; "'div'"]
           ["in"; "'div'"] (Some "props") None).
  eapply rtc_l; [|apply rtc_refl].
  apply step_with_expr. discriminate.
Defined.

(** C4, as stated, fails on the empty token: it is neither [with] nor [in],
    it is dequeued at the top level, and it ends the loop without an error. *)
Lemma empty_token_does_not_throw :
  ~ (forall arg, arg <> STR_WITH -> arg <> STR_IN -> throws_on_top_level_token arg).
Proof.
  intros H.
  specialize (H "" ltac:(discriminate) ltac:(discriminate)
                VUndefined "Header" [""] [] None None VUndefined VUndefined []
                (rtc_refl _ _)).
  vm_compute in H. discriminate H.
Qed.

(** Such an argument list comes out of the parser: two empty string
    literals are both taken for the component name and both pushed, and
    [compile] accepts the result. *)
Example empty_literals_compile :
  let '(st1, _) := handle (parse_init []) (Token STRING "''") in
  let '(st2, _) := handle st1 (Token STRING "''") in
  out st2 = [""; ""]
  /\ compile VUndefined (out st2) VUndefined VUndefined (VObj [])
     = Some (Normal (emit (Some "") None None)).
Proof. split; reflexivity. Qed.

(** ** The [componentRoot] option *)

Lemma compile_options_irrelevant compiler args content parents o1 o2 :
  compile compiler args content parents (VObj o1)
  = compile compiler args content parents (VObj o2).
Proof. reflexivity. Qed.

(** C8.  Whatever the other inputs, two option objects that differ only in
    the value of [reactComponentRoot] give the same emitted code (or the same
    error). *)
Theorem compile_ignores_componentRoot compiler args content parents o v1 v2 :
  compile compiler args content parents (VObj (set_prop "reactComponentRoot" v1 o))
  = compile compiler args content parents (VObj (set_prop "reactComponentRoot" v2 o)).
Proof. apply compile_options_irrelevant. Qed.

(** ** Braces that never balance *)

(** C9, as the code has it.  After [with] and [{], when no token of [body]
    is empty and no closing brace in it balances the counts: if [body] is
    all that is left, the loop ends without an error and [props] is the
    single token [{]; if an empty token follows [body], the inner loop stops
    there, [props] is [{] again, and the outer loop goes on with the tokens
    after the empty one. *)
Theorem unbalanced_object_keeps_brace (body rest : list string)
    (props container : option string) :
  Forall (fun t => t <> "") body ->
  no_balance_within 1 0 body ->
  run_args (STR_WITH :: STR_OBJ_OPEN :: body) props container
    = Some (Normal (Some STR_OBJ_OPEN, container))
  /\ (forall compiler name content parents o,
        compile compiler (name :: STR_WITH :: STR_OBJ_OPEN :: body)
          content parents (VObj o)
        = Some (Normal (emit (Some name) (Some STR_OBJ_OPEN) None)))
  /\ run_args (STR_WITH :: STR_OBJ_OPEN :: body ++ "" :: rest) props container
     = run_args rest (Some STR_OBJ_OPEN) container.
Proof.
  intros Hne Hfirst.
  assert (Hend : forall p c,
    run_args (STR_WITH :: STR_OBJ_OPEN :: body) p c
    = Some (Normal (Some STR_OBJ_OPEN, c))).
  { intros p c.
    rewrite (run_args_loop_step _ p c [] (Some STR_OBJ_OPEN) c); [reflexivity|].
    apply (step_with_object _ None). by apply scan_object_exhausted. }
  split; [apply Hend|split].
  - intros compiler name0 content parents o. unfold compile. simpl.
    by rewrite Hend.
  - apply run_args_loop_step.
    apply (step_with_object _ None). by apply scan_object_empty_token.
Qed.

Lemma unbalanced_object_keeps_brace_witness :
  run_args ["with"; "{"; "a"; ":"; "{"; "b"; "}"] None None
    = Some (Normal (Some "{", None))
  /\ (forall compiler name content parents o,
        compile compiler [name; "with"; "{"; "a"; ":"; "{"; "b"; "}"]
          content parents (VObj o)
        = Some (Normal (emit (Some name) (Some "{") None)))
  /\ run_args ["with"; "{"; "a"; ":"; "{"; "b"; "}"; ""; "in"; "'p'"] None None
     = run_args ["in"; "'p'"] (Some "{") None.
Proof.
  apply (unbalanced_object_keeps_brace ["a"; ":"; "{"; "b"; "}"] ["in"; "'p'"]
           None None).
  - tokens_nonempty.
  - intros pre post H. split_prefix pre H.
Defined.

(** C9, as stated, fails when it is an empty token that stops the inner
    loop: the tokens after it are not consumed, and the outer loop can still
    throw on them. *)
Lemma empty_token_in_object_can_throw :
  scan_object ["a"; ""; "oops"] 1 0 STR_OBJ_OPEN = (None, ["oops"])
  /\ compile VUndefined ["Header"; "with"; "{"; "a"; ""; "oops"]
       VUndefined VUndefined (VObj [])
     = Some (Throw (unexpected_argument "oops")).
Proof. split; reflexivity. Qed.

(** ** The first token of a tag *)

Lemma strip_trailing_quote_snoc (x : string) (q : ascii) :
  is_quote q = true ->
  strip_trailing_quote (x +:+ String q EmptyString) = x.
Proof.
  intros Hq. induction x as [|c x IH].
  - simpl. by rewrite Hq.
  - rewrite str_app_cons. simpl.
    destruct (x +:+ String q EmptyString) eqn:E.
    + destruct x; discriminate E.
    + by rewrite IH.
Qed.

(** A quoted literal loses exactly its two quotes. *)
Lemma strip_quotes_quoted (q1 q2 : ascii) (x : string) :
  is_quote q1 = true -> is_quote q2 = true ->
  strip_quotes (String q1 (x +:+ String q2 EmptyString)) = x.
Proof.
  intros H1 H2. simpl. rewrite H1. by apply strip_trailing_quote_snoc.
Qed.

(** C3, as the code has it.  A first [STRING] token is recorded as the
    component name without its quotes, pushed on the output and not passed
    through; a first [VAR] token is recorded as the component name, is not
    pushed, and the handler returns [true]: it is passed through to the
    host's grammar. *)
Theorem first_token_handlers (text : string) (out0 : list string) :
  handle (parse_init out0) (Token STRING text)
    = (ParseState (Some (strip_quotes text)) (out0 ++ [strip_quotes text]),
       Some RetUndefined)
  /\ passes_through RetUndefined = false
  /\ handle (parse_init out0) (Token VAR text)
     = (ParseState (Some text) out0, Some (RetBool true))
  /\ passes_through (RetBool true) = true.
Proof. repeat split. Qed.

(** C3, as stated, fails on a bare identifier: its handler returns [true]. *)
Lemma first_var_token_passes_through :
  ~ (forall tok, type tok = STRING \/ type tok = VAR -> first_token_is_captured tok).
Proof.
  intros H.
  destruct (H (Token VAR "Header") (or_intror eq_refl) []
              (ParseState (Some "Header") []) (RetBool true) eq_refl) as [_ Hpass].
  discriminate Hpass.
Qed.

(** ** The registry *)

Lemma assign_props_lookup props : forall (m : gmap string jsval) k,
  assign_props m props !! k = match last_own k props with
                              | Some v => Some v
                              | None => m !! k
                              end.
Proof.
  induction props as [|[k' v] rest IH]; intros m k; [reflexivity|].
  unfold assign_props in *. simpl. rewrite IH.
  destruct (last_own k rest); [reflexivity|].
  destruct (String.eqb_spec k k') as [->|Hne].
  - apply lookup_insert_eq.
  - by apply lookup_insert_ne.
Qed.

Lemma merge_all_lookup groups : forall (m : gmap string jsval) k,
  merge_all m groups !! k = match last_binding k groups with
                            | Some v => Some v
                            | None => m !! k
                            end.
Proof.
  induction groups as [|g rest IH]; intros m k; [reflexivity|].
  unfold merge_all in *. simpl. rewrite IH.
  destruct (last_binding k rest); [reflexivity|].
  apply assign_props_lookup.
Qed.

Lemma extendComponents_objects pre : forall components rest,
  Forall (fun v => typeof v = "object") pre ->
  extendComponents components (pre ++ rest)
  = extendComponents (merge_all components pre) rest.
Proof.
  induction pre as [|g pre IH]; intros components rest Hpre; [reflexivity|].
  inversion Hpre as [|? ? Hg Hpre']; subst.
  simpl. rewrite Hg. simpl. by apply IH.
Qed.

(** C6, as the code has it.  When the arguments before [rest] all have
    [typeof] equal to [object], and [rest] is empty or starts with a value
    whose [typeof] is not [object], then [extendComponents] leaves the
    registry merged with exactly the arguments before [rest], returns
    normally in the first case and throws in the second; and in the merged
    registry a name has the value of the last of those arguments that has
    it, or its former value when none has. *)
Theorem extendComponents_merges_until_non_object
    (components : gmap string jsval) (pre rest : list jsval) :
  Forall (fun v => typeof v = "object") pre ->
  match rest with
  | [] => True
  | bad :: _ => typeof bad <> "object"
  end ->
  extendComponents components (pre ++ rest)
    = (merge_all components pre,
       match rest with
       | [] => Normal tt
       | _ :: _ => Throw expects_objects
       end)
  /\ forall k, merge_all components pre !! k
               = match last_binding k pre with
                 | Some v => Some v
                 | None => components !! k
                 end.
Proof.
  intros Hpre Hrest. split; [|intros k; apply merge_all_lookup].
  rewrite extendComponents_objects by done.
  destruct rest as [|bad rest]; [reflexivity|].
  simpl. by rewrite (proj2 (String.eqb_neq (typeof bad) "object")).
Qed.

Lemma extendComponents_merges_until_non_object_witness :
  extendComponents {["Header" := VFun 0]}
    ([VObj [("Header", VFun 1); ("Footer", VFun 2)]; VNull; VObj [("Footer", VFun 3)]]
     ++ [VFun 4; VObj [("Late", VFun 5)]])
    = (merge_all {["Header" := VFun 0]}
         [VObj [("Header", VFun 1); ("Footer", VFun 2)]; VNull; VObj [("Footer", VFun 3)]],
       Throw expects_objects)
  /\ forall k,
       merge_all {["Header" := VFun 0]}
         [VObj [("Header", VFun 1); ("Footer", VFun 2)]; VNull; VObj [("Footer", VFun 3)]]
       !! k
       = match last_binding k
                 [VObj [("Header", VFun 1); ("Footer", VFun 2)]; VNull;
                  VObj [("Footer", VFun 3)]] with
         | Some v => Some v
         | None => ({["Header" := VFun 0]} : gmap string jsval) !! k
         end.
Proof.
  apply (extendComponents_merges_until_non_object {["Header" := VFun 0]}
           [VObj [("Header", VFun 1); ("Footer", VFun 2)]; VNull; VObj [("Footer", VFun 3)]]
           [VFun 4; VObj [("Late", VFun 5)]]).
  - repeat constructor.
  - discriminate.
Defined.

(** C6, as stated, fails on [null]: it is not an object, and
    [extendComponents] accepts it. *)
Lemma extendComponents_accepts_null :
  ~ (forall (components : gmap string jsval) arguments,
       Exists (fun v => is_object v = false) arguments ->
       exists msg, (extendComponents components arguments).2 = Throw msg).
Proof.
  intros H.
  destruct (H ∅ [VNull]) as [msg Hmsg].
  - constructor. reflexivity.
  - discriminate Hmsg.
Qed.

(** ** The bridge and the own-property test *)

Section BridgeProperties.

Variable renderToString : jsval -> jsval -> string.
Variable call_function : nat -> list jsval -> result jsval.
Variable ToString_object : jsval -> result string.
Variable Object_prototype : string -> option jsval.

Abbreviation bridge :=
  (renderReactComponentToString renderToString call_function Object_prototype).
Abbreviation render :=
  (render_tag renderToString call_function ToString_object Object_prototype).

Lemma call_hasOwnProperty_plain (components : gmap string jsval) key :
  components !! "hasOwnProperty" = None ->
  call_hasOwnProperty call_function (fun k => components !! k) key
  = Normal (bool_decide (is_Some (components !! key))).
Proof. intros H. unfold call_hasOwnProperty. by rewrite H. Qed.

Lemma bridge_found (components : gmap string jsval) componentName props Component :
  components !! "hasOwnProperty" = None ->
  components !! componentName = Some Component ->
  bridge components componentName props
  = Normal (VStr (renderToString Component props), []).
Proof.
  intros Hplain Hown. unfold renderReactComponentToString.
  rewrite call_hasOwnProperty_plain by done. simpl.
  rewrite bool_decide_eq_true_2 by (rewrite Hown; by eexists).
  unfold get_property. by rewrite Hown.
Qed.

Lemma bridge_missing (components : gmap string jsval) componentName props :
  components !! "hasOwnProperty" = None ->
  components !! componentName = None ->
  bridge components componentName props
  = Normal (VUndefined, [missing_component componentName]).
Proof.
  intros Hplain Hown. unfold renderReactComponentToString.
  rewrite call_hasOwnProperty_plain by done. simpl.
  rewrite bool_decide_eq_false_2; [reflexivity|].
  rewrite Hown. by intros [? ?].
Qed.

(** C10, as the code has it.  On a registry that has no own property named
    [hasOwnProperty], the bridge renders exactly when the requested name is
    an own property of the registry; otherwise, also when
    [Object.prototype] has a property of that name, it logs the diagnostic
    and returns [undefined]. *)
Theorem bridge_renders_iff_own (components : gmap string jsval)
    (componentName : string) (props : jsval) :
  components !! "hasOwnProperty" = None ->
  (forall Component, components !! componentName = Some Component ->
     bridge components componentName props
     = Normal (VStr (renderToString Component props), []))
  /\ (components !! componentName = None ->
      bridge components componentName props
      = Normal (VUndefined, [missing_component componentName])).
Proof.
  intros Hplain. split.
  - intros Component Hown. by apply bridge_found.
  - intros Hown. by apply bridge_missing.
Qed.

(** C7, as the code has it.  On a registry that has no own property named
    [hasOwnProperty], for a name that is not in the registry and any props:
    the bridge does not throw, it logs one diagnostic, which quotes the
    name and shows the [components] call that registers it, and it
    returns [undefined]; and when the opening and closing tags of the
    container evaluate, rendering does not throw either, and the fragment
    starts with the opening tag and its attributes and ends with the
    closing tag. *)
Theorem missing_component_degrades (components : gmap string jsval)
    (componentName : string) (propsArg containerArg : jsval) :
  components !! "hasOwnProperty" = None ->
  components !! componentName = None ->
  bridge components componentName (default_props propsArg)
    = Normal (VUndefined, [missing_component componentName])
  /\ occurs_in (dq +:+ componentName +:+ dq) (missing_component componentName)
  /\ occurs_in
       ("require('@risd/webhook-react-tag').components( { " +:+ componentName +:+ " } )")
       (missing_component componentName)
  /\ forall open close,
       opening_tag call_function ToString_object Object_prototype
         componentName (default_props propsArg) (default_container containerArg)
         = Normal open ->
       closing_tag ToString_object Object_prototype (default_container containerArg)
         = Normal close ->
       exists inner,
         render components componentName propsArg containerArg
         = Normal (open +:+ inner +:+ close, [missing_component componentName]).
Proof.
  intros Hplain Hown.
  pose proof (bridge_missing components componentName (default_props propsArg)
                Hplain Hown) as Hbridge.
  split; [exact Hbridge|]. split; [|split].
  - exists "". eexists. unfold missing_component.
    rewrite str_app_nil_l, !str_app_assoc. reflexivity.
  - exists (dq +:+ componentName +:+ dq
            +:+ " component does not exist in components supplied."
            +:+ String "010"%char
                  "      Try extending @risd/webhook-react-tag with an object that includes "
            +:+ componentName +:+ "." +:+ String "010"%char "      ie: "), "".
    unfold missing_component.
    rewrite str_app_nil_r, !str_app_assoc. reflexivity.
  - intros open close Hopen Hclose. exists "undefined". unfold render_tag.
    rewrite Hopen. simpl. rewrite Hbridge. simpl. rewrite Hclose. reflexivity.
Qed.

End BridgeProperties.

(** ** A concrete render-time environment *)

Lemma bridge_renders_iff_own_witness :
  sample_bridge sample_registry "Header" (VObj [])
    = Normal (VStr "<h1>Hello</h1>", [])
  /\ sample_bridge sample_registry "toString" (VObj [])
     = Normal (VUndefined, [missing_component "toString"]).
Proof.
  split.
  - apply (proj1 (bridge_renders_iff_own sample_renderToString sample_call_function
                    sample_Object_prototype sample_registry "Header" (VObj []) eq_refl)
             (VFun 0) eq_refl).
  - apply (proj2 (bridge_renders_iff_own sample_renderToString sample_call_function
                    sample_Object_prototype sample_registry "toString" (VObj []) eq_refl)
             eq_refl).
Defined.

(** C10, as stated, fails on a registry with an own property named
    [hasOwnProperty]: asked for that very name, an own property, the bridge
    throws instead of rendering. *)
Lemma own_hasOwnProperty_breaks_bridge :
  ~ (forall renderToString call_function Object_prototype
       (components : gmap string jsval) componentName props,
       is_Some (components !! componentName) <->
       exists markup,
         renderReactComponentToString renderToString call_function Object_prototype
           components componentName props
         = Normal (VStr markup, [])).
Proof.
  intros H.
  destruct (H sample_renderToString sample_call_function sample_Object_prototype
              shadowed_registry "hasOwnProperty" (VObj [])) as [Hown _].
  destruct Hown as [markup Hmarkup]; [by eexists|].
  discriminate Hmarkup.
Qed.

Lemma missing_component_degrades_witness :
  sample_bridge sample_registry "Missing" (VObj [])
    = Normal (VUndefined, [missing_component "Missing"])
  /\ exists inner,
       sample_render sample_registry "Missing" VUndefined VUndefined
       = Normal (("<div data-react-component=" +:+ dq +:+ "Missing" +:+ dq
                  +:+ " data-react-props=" +:+ dq +:+ "{}" +:+ dq +:+ ">")
                 +:+ inner +:+ "</div>",
                 [missing_component "Missing"]).
Proof.
  destruct (missing_component_degrades sample_renderToString sample_call_function
              sample_ToString_object sample_Object_prototype sample_registry
              "Missing" VUndefined VUndefined eq_refl eq_refl)
    as (Hbridge & _ & _ & Hfragment).
  split; [exact Hbridge|].
  apply (Hfragment
           ("<div data-react-component=" +:+ dq +:+ "Missing" +:+ dq
            +:+ " data-react-props=" +:+ dq +:+ "{}" +:+ dq +:+ ">")
           "</div>"); reflexivity.
Defined.

(** What stands between the tags for a missing component: the text that
    string concatenation makes of the [undefined] the bridge returns. *)
Lemma missing_component_fragment_text :
  sample_render ∅ "Missing" VUndefined VUndefined
  = Normal ("<div data-react-component=" +:+ dq +:+ "Missing" +:+ dq
            +:+ " data-react-props=" +:+ dq +:+ "{}" +:+ dq +:+ ">"
            +:+ "undefined" +:+ "</div>",
            [missing_component "Missing"]).
Proof. reflexivity. Qed.

(** C7, as stated, fails on a registry with an own property named
    [hasOwnProperty] that is no function: for a name that is not registered
    the bridge throws. *)
Lemma shadowed_hasOwnProperty_bridge_throws :
  ~ (forall renderToString call_function Object_prototype
       (components : gmap string jsval) componentName props,
       components !! componentName = None ->
       exists r,
         renderReactComponentToString renderToString call_function Object_prototype
           components componentName props
         = Normal r).
Proof.
  intros H.
  destruct (H sample_renderToString sample_call_function sample_Object_prototype
              shadowed_registry "Missing" (VObj []) eq_refl) as [r Hr].
  discriminate Hr.
Qed.

(** ** The props attribute *)

Lemma strip_prefix_app k s : strip_prefix k (k +:+ s) = Some s.
Proof.
  induction k as [|a k IH]; [reflexivity|].
  rewrite str_app_cons. simpl. by rewrite Ascii.eqb_refl.
Qed.

Lemma until_dq_app value post :
  has_dq value = false -> until_dq (value +:+ dq +:+ post) = Some value.
Proof.
  induction value as [|c value IH]; intros H; [reflexivity|].
  simpl in H. apply orb_false_iff in H as [Hc Hrest].
  rewrite str_app_cons. simpl. rewrite Hc. by rewrite IH.
Qed.

Lemma attr_values_occurrence pre : forall k value post,
  k <> EmptyString -> has_dq value = false ->
  value ∈ attr_values k (pre +:+ k +:+ value +:+ dq +:+ post).
Proof.
  induction pre as [|c pre IH]; intros k value post Hk Hvalue.
  - rewrite str_app_nil_l. destruct k as [|a k]; [done|].
    rewrite str_app_cons.
    change (attr_values (String a k) (String a (k +:+ value +:+ dq +:+ post)))
      with (match strip_prefix (String a k) (String a k +:+ value +:+ dq +:+ post) with
            | Some r => match until_dq r with Some v => [v] | None => [] end
            | None => []
            end ++ attr_values (String a k) (k +:+ value +:+ dq +:+ post)).
    rewrite strip_prefix_app, until_dq_app by done.
    apply elem_of_app. left. apply list_elem_of_singleton. reflexivity.
  - rewrite str_app_cons.
    change (attr_values k (String c (pre +:+ k +:+ value +:+ dq +:+ post)))
      with (match strip_prefix k (String c (pre +:+ k +:+ value +:+ dq +:+ post)) with
            | Some r => match until_dq r with Some v => [v] | None => [] end
            | None => []
            end ++ attr_values k (pre +:+ k +:+ value +:+ dq +:+ post)).
    apply elem_of_app. right. by apply IH.
Qed.

Lemma has_attribute_values attr value fragment :
  has_attribute attr value fragment ->
  value ∈ attr_values (attr_open attr) fragment.
Proof.
  intros [Hvalue (pre & post & ->)]. unfold attribute.
  rewrite !str_app_assoc. apply attr_values_occurrence; [|done].
  unfold attr_open. discriminate.
Qed.

Lemma has_dq_replace_all s : has_dq (replace_all_dq s) = false.
Proof.
  induction s as [|c s IH]; [reflexivity|].
  simpl. destruct (Ascii.eqb c dqc) eqn:E.
  - unfold quot. rewrite !str_app_cons, str_app_nil_l. simpl. exact IH.
  - simpl. by rewrite E.
Qed.

Lemma prefix_replace_all pat : forall s,
  plain_pattern pat = true ->
  String.prefix pat (replace_all_dq s) = String.prefix pat s.
Proof.
  induction pat as [|a pat IH]; intros s Hpat.
  { destruct s as [|c s]; [reflexivity|].
    simpl. destruct (Ascii.eqb c dqc); [|reflexivity].
    unfold quot. by rewrite str_app_cons. }
  simpl in Hpat. apply andb_true_iff in Hpat as [Ha Hpat].
  apply andb_true_iff in Ha as [Hdq Hamp].
  apply negb_true_iff in Hdq, Hamp.
  apply Ascii.eqb_neq in Hdq, Hamp.
  destruct s as [|c s]; [reflexivity|].
  simpl. destruct (Ascii.eqb_spec c dqc) as [->|Hc].
  - unfold quot. rewrite str_app_cons. simpl.
    destruct (ascii_dec a "&"%char); [done|].
    destruct (ascii_dec a dqc); [done|reflexivity].
  - simpl. destruct (ascii_dec a c); [by apply IH|reflexivity].
Qed.

Lemma prefix_empty s : String.prefix "" s = true.
Proof. by destruct s. Qed.

Lemma prefix_cons a pat c s :
  String.prefix (String a pat) (String c s)
  = if ascii_dec a c then String.prefix pat s else false.
Proof. reflexivity. Qed.

(** Unescaping undoes the escaping of a text in which [&quot;] does not
    occur. *)
Lemma unescape_replace_all s :
  has_quot s = false -> unescape_quot (replace_all_dq s) = s.
Proof.
  unfold unescape_quot. induction s as [|c s IH]; intros H; [reflexivity|].
  change (has_quot (String c s)) with (String.prefix quot (String c s) || has_quot s) in H.
  apply orb_false_iff in H as [Hhere Hrest].
  simpl replace_all_dq. destruct (Ascii.eqb_spec c dqc) as [->|Hc].
  - unfold quot. rewrite !str_app_cons, str_app_nil_l.
    simpl. rewrite prefix_empty. by rewrite IH.
  - change (unescape_from 0 (String c (replace_all_dq s)))
      with (if String.prefix quot (String c (replace_all_dq s))
            then String dqc (unescape_from 5 (replace_all_dq s))
            else String c (unescape_from 0 (replace_all_dq s))).
    replace (String.prefix quot (String c (replace_all_dq s))) with false.
    + by rewrite IH.
    + rewrite <- Hhere. unfold quot. rewrite !prefix_cons.
      destruct (ascii_dec "&"%char c); [|reflexivity].
      symmetry. by apply (prefix_replace_all "quot;").
Qed.

Section PropsAttribute.

(** The decoder of the reader of the markup. *)
Variable JSON_parse : string -> option jsval.
Variable renderToString : jsval -> jsval -> string.
Variable call_function : nat -> list jsval -> result jsval.
Variable ToString_object : jsval -> result string.
Variable Object_prototype : string -> option jsval.

Lemma opening_tag_default n props text :
  JSON_stringify (VObj props) = Some text ->
  opening_tag call_function ToString_object Object_prototype n
    (VObj props) (VObj [("tag", VStr "div")])
  = Normal ("<div" +:+ attribute "data-react-component" n
             +:+ attribute "data-react-props" (replace_all_dq text) +:+ ">").
Proof.
  intros Htext. unfold opening_tag. rewrite Htext.
  unfold attribute, attr_open. simpl.
  by rewrite !str_app_assoc.
Qed.

(** The fragment of a tag without [in] clause, for a registered component. *)
Lemma render_tag_default (components : gmap string jsval) n props text Component :
  components !! "hasOwnProperty" = None ->
  components !! n = Some Component ->
  JSON_stringify (VObj props) = Some text ->
  render_tag renderToString call_function ToString_object Object_prototype
    components n (VObj props) VUndefined
  = Normal ("<div" +:+ attribute "data-react-component" n
             +:+ attribute "data-react-props" (replace_all_dq text) +:+ ">"
             +:+ renderToString Component (VObj props) +:+ "</div>", []).
Proof.
  intros Hplain Hown Htext. unfold render_tag.
  change (default_props (VObj props)) with (VObj props).
  change (default_container VUndefined) with (VObj [("tag", VStr "div")]).
  rewrite (opening_tag_default n props text Htext).
  change (mbind ?f (Normal ?a)) with (f a). cbv beta.
  rewrite (bridge_found _ _ _ _ _ _ Component Hplain Hown).
  simpl. by rewrite !str_app_assoc.
Qed.

(** C1, as the code has it.  For a component name whose text the emitted
    literals denote, registered in a registry without an own property
    named [hasOwnProperty], and a props object whose JSON text holds no
    occurrence of [&quot;] and is decoded back to the object by the
    decoder: the tag without [in] clause renders markup that has the
    component attribute, and a props attribute whose value, unescaped,
    decodes to the props object. *)
Theorem props_attribute_round_trips (components : gmap string jsval)
    (n : string) (props : list (string * jsval)) (text : string)
    (Component : jsval) :
  literal_safe n = true ->
  components !! "hasOwnProperty" = None ->
  components !! n = Some Component ->
  JSON_stringify (VObj props) = Some text ->
  has_quot text = false ->
  JSON_parse text = Some (VObj props) ->
  props_round_trip JSON_parse renderToString call_function ToString_object
    Object_prototype components n (VObj props).
Proof.
  intros Hsafe Hplain Hown Htext Hquot Hparse.
  eexists _, _, (replace_all_dq text). split; [|split; [|split]].
  - unfold run_emitted. rewrite Hsafe.
    by rewrite (render_tag_default components n props text Component).
  - exists "<div". eexists. reflexivity.
  - split; [apply has_dq_replace_all|].
    exists ("<div" +:+ attribute "data-react-component" n). eexists.
    by rewrite !str_app_assoc.
  - by rewrite unescape_replace_all.
Qed.

End PropsAttribute.

Lemma props_attribute_round_trips_witness :
  props_round_trip sample_JSON_parse sample_renderToString sample_call_function
    sample_ToString_object sample_Object_prototype sample_registry
    "Header" (VObj [("name", VStr "John")]).
Proof.
  apply (props_attribute_round_trips sample_JSON_parse sample_renderToString
           sample_call_function sample_ToString_object sample_Object_prototype
           sample_registry "Header" [("name", VStr "John")]
           ("{" +:+ dq +:+ "name" +:+ dq +:+ ":" +:+ dq +:+ "John" +:+ dq +:+ "}")
           (VFun 0)); reflexivity.
Defined.

(** C1, as stated, fails whatever the decoder: the two objects above are
    different, and their props attributes, once unescaped, are the same
    text, so no decoder returns each object from its own attribute. *)
Lemma quot_in_props_breaks_round_trip :
  ~ exists JSON_parse,
      props_round_trip JSON_parse sample_renderToString sample_call_function
        sample_ToString_object sample_Object_prototype sample_registry
        "Header" props_with_quot
      /\ props_round_trip JSON_parse sample_renderToString sample_call_function
           sample_ToString_object sample_Object_prototype sample_registry
           "Header" props_plain.
Proof.
  intros (JSON_parse & (f1 & l1 & v1 & Hrun1 & _ & Hattr1 & Hparse1)
                     & (f2 & l2 & v2 & Hrun2 & _ & Hattr2 & Hparse2)).
  vm_compute in Hrun1. vm_compute in Hrun2.
  injection Hrun1 as <- <-. injection Hrun2 as <- <-.
  apply has_attribute_values in Hattr1, Hattr2.
  vm_compute in Hattr1. vm_compute in Hattr2.
  apply list_elem_of_singleton in Hattr1, Hattr2. subst v1 v2.
  rewrite Hparse1 in Hparse2. discriminate Hparse2.
Qed.

(** ** Container attributes *)

(** C5 at a value with two double quotes: the attribute loop escapes the
    first and leaves the second, whereas the props attribute has every
    double quote escaped. *)
Lemma container_attribute_escapes_first_quote_only :
  sample_render sample_registry "Header" (VObj [("k", VStr (dq +:+ dq))])
    (VObj [("tag", VStr "div"); ("title", VStr ("a" +:+ dq +:+ "b" +:+ dq +:+ "c"))])
  = Normal ("<div title=" +:+ dq +:+ "a&quot;b" +:+ dq +:+ "c" +:+ dq
            +:+ " data-react-component=" +:+ dq +:+ "Header" +:+ dq
            +:+ " data-react-props=" +:+ dq
            +:+ "{&quot;k&quot;:&quot;\&quot;\&quot;&quot;}" +:+ dq +:+ ">"
            +:+ "<h1>Hello</h1>" +:+ "</div>", []).
Proof. reflexivity. Qed.


(** * Further properties of the code *)

(** ** The argument loop as a whole *)

Lemma scan_object_rest_elem args : forall o c parts x,
  x ∈ (scan_object args o c parts).2 -> x ∈ args.
Proof.
  induction args as [|objPart rest IH]; intros o c parts x; simpl; [done|].
  destruct (String.eqb objPart ""); simpl; [by right|].
  match goal with
  | |- context [if ?b then (Some ?s, rest) else ?e] => destruct b; simpl; [by right|]
  end.
  intros Hx. right. by eapply IH.
Qed.

Lemma args_loop_outcomes fuel : forall args props container,
  List.length args < fuel ->
  (exists props' container',
     args_loop fuel args props container = Some (Normal (props', container')))
  \/ (exists arg,
        arg ∈ args /\ arg <> "" /\ arg <> STR_WITH /\ arg <> STR_IN
        /\ args_loop fuel args props container = Some (Throw (unexpected_argument arg))).
Proof.
  induction fuel as [|fuel IH]; intros args props container Hlen; [lia|].
  destruct args as [|arg args1]; [left; by eexists _, _|].
  simpl in Hlen. simpl.
  destruct (String.eqb_spec arg "") as [->|Hempty]; [left; by eexists _, _|].
  assert (Hlift : forall sub p c,
    (forall x, x ∈ sub -> x ∈ args1) -> List.length sub < fuel ->
    (exists p' c', args_loop fuel sub p c = Some (Normal (p', c')))
    \/ (exists a, a ∈ arg :: args1 /\ a <> "" /\ a <> STR_WITH /\ a <> STR_IN
                  /\ args_loop fuel sub p c = Some (Throw (unexpected_argument a)))).
  { intros sub p c Hsub Hl.
    destruct (IH sub p c Hl) as [?|(a & Ha & ?)]; [by left|].
    right. exists a. split; [right; by apply Hsub|done]. }
  destruct (String.eqb_spec arg STR_WITH) as [->|Hwith].
  - destruct args1 as [|p1 args2]; simpl.
    + apply Hlift; [done|simpl; lia].
    + case_bool_decide.
      * pose proof (scan_object_length args2 1 0 STR_OBJ_OPEN) as Hl.
        pose proof (scan_object_rest_elem args2 1 0 STR_OBJ_OPEN) as Hin.
        destruct (scan_object args2 1 0 STR_OBJ_OPEN) as [found args3].
        simpl in *. apply Hlift; [|lia].
        intros x Hx. right. by apply Hin.
      * apply Hlift; [by right|simpl in *; lia].
  - destruct (String.eqb_spec arg STR_IN) as [->|Hin].
    + destruct args1 as [|c1 args2]; simpl.
      * apply Hlift; [done|simpl; lia].
      * apply Hlift; [by right|simpl in *; lia].
    + right. exists arg. split; [by left|done].
Qed.

(** X1.  Given an options object, [compile] always comes to an end, and in
    one of two ways: it returns the emitted statement, built around the first
    argument as component name, or it throws the error that names a
    non-empty argument after the first that is neither [with] nor [in].  It
    throws nothing else. *)
Theorem compile_outcomes compiler args content parents o :
  (exists props container,
     compile compiler args content parents (VObj o)
     = Some (Normal (emit (shift args).1 props container)))
  \/ (exists arg,
        arg ∈ (shift args).2 /\ arg <> "" /\ arg <> STR_WITH /\ arg <> STR_IN
        /\ compile compiler args content parents (VObj o)
           = Some (Throw (unexpected_argument arg))).
Proof.
  unfold compile. simpl get_reactComponentRoot. cbv iota beta.
  destruct (shift args) as [componentName0 args1]. simpl.
  destruct (args_loop_outcomes (S (List.length args1)) args1 None None)
    as [(p & c & Hrun)|(arg & Hin & H0 & Hw & Hi & Hrun)]; [lia| |];
    unfold run_args; rewrite Hrun.
  - left. by eexists _, _.
  - right. by exists arg.
Qed.

(** X2.  A [with] clause overrides whatever props an earlier clause set, and
    an [in] clause whatever container: the outcome of the loop from a [with]
    token on does not depend on the props so far, nor from an [in] token on
    on the container so far.  A trailing [with] without expression resets
    the props to [undefined]. *)
Theorem later_clause_overrides (rest : list string)
    (props1 props2 container1 container2 : option string) :
  run_args (STR_WITH :: rest) props1 container1
    = run_args (STR_WITH :: rest) props2 container1
  /\ run_args (STR_IN :: rest) props1 container1
     = run_args (STR_IN :: rest) props1 container2
  /\ run_args [STR_WITH] props1 container1 = Some (Normal (None, container1)).
Proof.
  split; [|split]; [| |reflexivity].
  - unfold run_args. simpl.
    destruct (shift rest) as [p1 args2].
    case_bool_decide; [|reflexivity].
    by destruct (scan_object args2 1 0 STR_OBJ_OPEN).
  - unfold run_args. simpl. by destruct (shift rest).
Qed.

(** X3.  The order of the two clauses does not matter: [with p in c] and
    [in c with p] leave the loop in the same state, for a props expression
    [p] of one token other than the opening brace. *)
Theorem clauses_commute (p c : string) (rest : list string)
    (props container : option string) :
  p <> STR_OBJ_OPEN ->
  run_args (STR_WITH :: p :: STR_IN :: c :: rest) props container
  = run_args (STR_IN :: c :: STR_WITH :: p :: rest) props container.
Proof.
  intros Hp.
  rewrite (run_args_loop_step (STR_WITH :: p :: STR_IN :: c :: rest) props container
             (STR_IN :: c :: rest) (Some p) container)
    by (by apply step_with_expr).
  rewrite (run_args_loop_step (STR_IN :: c :: rest) (Some p) container
             rest (Some p) (Some c)) by apply step_in.
  rewrite (run_args_loop_step (STR_IN :: c :: STR_WITH :: p :: rest) props container
             (STR_WITH :: p :: rest) props (Some c)) by apply step_in.
  rewrite (run_args_loop_step (STR_WITH :: p :: rest) props (Some c)
             rest (Some p) (Some c)) by (by apply step_with_expr).
  reflexivity.
Qed.

Lemma clauses_commute_witness :
  run_args ["with"; "props"; "in"; "el"] None None
  = run_args ["in"; "el"; "with"; "props"] None None.
Proof. apply (clauses_commute "props" "el" [] None None). discriminate. Defined.

(** X4.  Whenever the inner loop leaves with a props text, that text is the
    text accumulated before, followed by every token it consumed, in order,
    the last of them a closing brace; none of these tokens is empty, the
    braces counted balance exactly at that closing brace and at no earlier
    one, and the tokens after it are left in the array untouched. *)
Theorem scan_object_found args : forall o c parts s rest,
  scan_object args o c parts = (Some s, rest) ->
  exists consumed,
    args = consumed ++ STR_OBJ_CLOSE :: rest
    /\ s = parts +:+ concat_tokens consumed +:+ STR_OBJ_CLOSE
    /\ Forall (fun t => t <> "") consumed
    /\ o + count_token STR_OBJ_OPEN consumed
       = S (c + count_token STR_OBJ_CLOSE consumed)
    /\ no_balance_within o c consumed.
Proof.
  induction args as [|objPart args IH]; intros o c parts s rest H; [discriminate H|].
  simpl in H.
  destruct (String.eqb_spec objPart "") as [->|Hne]; [discriminate H|].
  destruct (String.eqb_spec objPart STR_OBJ_CLOSE) as [->|Hclose].
  - simpl in H. destruct (Nat.eqb_spec o (S c)) as [Hbal|Hbal].
    + injection H as <- <-. exists []. repeat split; [constructor|simpl; lia|].
      intros pre post Hpre. destruct pre; discriminate Hpre.
    + destruct (IH _ _ _ _ _ H) as (consumed & -> & -> & Hall & Hcount & Hfirst).
      exists (STR_OBJ_CLOSE :: consumed). repeat split.
      * simpl. by rewrite !str_app_assoc.
      * by constructor.
      * simpl. lia.
      * intros pre post Hpre. destruct pre as [|x pre].
        -- simpl. lia.
        -- injection Hpre as <- Hpre. specialize (Hfirst pre post Hpre).
           simpl. lia.
  - simpl in H.
    destruct (IH _ _ _ _ _ H) as (consumed & -> & -> & Hall & Hcount & Hfirst).
    exists (objPart :: consumed).
    destruct (String.eqb_spec objPart STR_OBJ_OPEN) as [->|Hopen]; repeat split.
    + simpl. by rewrite !str_app_assoc.
    + by constructor.
    + simpl. lia.
    + intros pre post Hpre. destruct pre as [|x pre]; [discriminate Hpre|].
      injection Hpre as <- Hpre. specialize (Hfirst pre post Hpre). simpl. lia.
    + simpl. by rewrite !str_app_assoc.
    + by constructor.
    + simpl. rewrite (proj2 (String.eqb_neq objPart STR_OBJ_OPEN)),
        (proj2 (String.eqb_neq objPart STR_OBJ_CLOSE)) by done. lia.
    + intros pre post Hpre. destruct pre as [|x pre].
      * injection Hpre as -> _. done.
      * injection Hpre as <- Hpre. specialize (Hfirst pre post Hpre).
        simpl. rewrite (proj2 (String.eqb_neq objPart STR_OBJ_OPEN)),
          (proj2 (String.eqb_neq objPart STR_OBJ_CLOSE)) by done. lia.
Qed.

Lemma scan_object_found_witness :
  exists consumed,
    ["a"; ":"; "{"; "}"; "}"; "in"; "el"] = consumed ++ STR_OBJ_CLOSE :: ["in"; "el"]
    /\ "{a:{}}" = STR_OBJ_OPEN +:+ concat_tokens consumed +:+ STR_OBJ_CLOSE
    /\ Forall (fun t => t <> "") consumed
    /\ 1 + count_token STR_OBJ_OPEN consumed
       = S (0 + count_token STR_OBJ_CLOSE consumed)
    /\ no_balance_within 1 0 consumed.
Proof.
  apply (scan_object_found ["a"; ":"; "{"; "}"; "}"; "in"; "el"] 1 0 STR_OBJ_OPEN
           "{a:{}}" ["in"; "el"]).
  reflexivity.
Defined.

(** ** The parser over a whole tag *)

Lemma parse_token_named host st tok n :
  componentName st = Some n -> n <> "" ->
  parse_token host st tok
  = ParseState (Some n)
      (if is_keyword tok then out st ++ [match_ tok] else host (out st) tok).
Proof.
  intros Hname Hn.
  assert (Hset : name_unset st = false).
  { unfold name_unset. rewrite Hname. by apply String.eqb_neq. }
  unfold parse_token, handle, is_keyword, on_STRING, on_VAR.
  destruct tok as [[| |] text]; simpl; rewrite ?Hset; simpl;
    [by rewrite Hname| |by rewrite Hname].
  destruct (String.eqb text STR_WITH || String.eqb text STR_IN); simpl;
    by rewrite Hname.
Qed.

(** X5.  Once the component name is set to a non-empty text, no later token
    changes it, whatever the tokens; and from then on the tag pushes on the
    output exactly the [with] and [in] identifiers, keeps them from the
    host, and leaves every other token to the host. *)
Theorem name_is_stable host (toks : list token) : forall st n,
  componentName st = Some n -> n <> "" ->
  parse_tokens host st toks
  = ParseState (Some n)
      (foldl (fun o tok => if is_keyword tok then o ++ [match_ tok] else host o tok)
         (out st) toks).
Proof.
  induction toks as [|tok toks IH]; intros st n Hname Hn.
  - destruct st as [cn o]. simpl in *. by rewrite Hname.
  - unfold parse_tokens in *. simpl.
    rewrite (parse_token_named host st tok n Hname Hn).
    by rewrite (IH (ParseState (Some n) _) n eq_refl Hn).
Qed.

Lemma name_is_stable_witness :
  parse_tokens (fun o tok => o ++ ["<" +:+ match_ tok +:+ ">"])
    (ParseState (Some "Header") ["Header"])
    [Token VAR "with"; Token VAR "props"; Token VAR "in"; Token STRING "'p'"]
  = ParseState (Some "Header") ["Header"; "with"; "<props>"; "in"; "<'p'>"].
Proof.
  apply (name_is_stable (fun o tok => o ++ ["<" +:+ match_ tok +:+ ">"])
           [Token VAR "with"; Token VAR "props"; Token VAR "in"; Token STRING "'p'"]
           (ParseState (Some "Header") ["Header"]) "Header" eq_refl).
  discriminate.
Defined.

(** X6.  A first string literal, whatever quote character opens it and
    whatever quote character closes it, names the component by the text
    between the two, and that text is what is pushed on the output. *)
Theorem quoted_name_is_unquoted (q1 q2 : ascii) (x : string) (out0 : list string) :
  is_quote q1 = true -> is_quote q2 = true ->
  handle (parse_init out0) (Token STRING (String q1 (x +:+ String q2 EmptyString)))
  = (ParseState (Some x) (out0 ++ [x]), Some RetUndefined).
Proof.
  intros H1 H2. unfold handle, on_STRING. simpl.
  rewrite H1. by rewrite (strip_trailing_quote_snoc x q2 H2).
Qed.

Lemma quoted_name_is_unquoted_witness :
  handle (parse_init []) (Token STRING "'./ui/shared/HelloMessage'")
  = (ParseState (Some "./ui/shared/HelloMessage") ["./ui/shared/HelloMessage"],
     Some RetUndefined).
Proof.
  apply (quoted_name_is_unquoted "'"%char "'"%char "./ui/shared/HelloMessage" []);
    reflexivity.
Defined.

(** X7.  An empty string literal as first token records the empty name,
    which counts as no name: the next string or identifier token is handled
    exactly as a first token would be, and so becomes the component name. *)
Theorem empty_name_is_no_name (text : string) (out0 : list string) (tok : token) :
  strip_quotes text = "" ->
  type tok <> OTHER ->
  handle (handle (parse_init out0) (Token STRING text)).1 tok
  = handle (parse_init (out0 ++ [""])) tok.
Proof.
  intros Hempty Htype. unfold handle at 2. unfold on_STRING. simpl.
  rewrite Hempty. destruct tok as [[| |] m]; [reflexivity|reflexivity|done].
Qed.

Lemma empty_name_is_no_name_witness :
  handle (handle (parse_init []) (Token STRING "''")).1 (Token VAR "Header")
  = handle (parse_init [""]) (Token VAR "Header").
Proof.
  apply (empty_name_is_no_name "''" [] (Token VAR "Header")); [reflexivity|discriminate].
Defined.

(** ** The registry under repeated and combined extension *)

Lemma last_own_is_Some k props :
  is_Some (last_own k props) <-> is_Some (own_lookup k props).
Proof.
  induction props as [|[k' v] rest IH]; simpl; [done|].
  destruct (String.eqb k k').
  - split; intros _; [by eexists|]. destruct (last_own k rest); by eexists.
  - rewrite <- IH. by destruct (last_own k rest).
Qed.

Lemma extendComponents_all_objects (components : gmap string jsval) groups :
  Forall (fun v => typeof v = "object") groups ->
  extendComponents components groups = (merge_all components groups, Normal tt).
Proof.
  intros H. rewrite <- (app_nil_r groups) at 1.
  by rewrite extendComponents_objects.
Qed.

(** X8.  Extending the registry a second time with the same groups changes
    nothing: the registry after the second call is the registry after the
    first. *)
Theorem extend_twice_is_once (components : gmap string jsval) (groups : list jsval) :
  Forall (fun v => typeof v = "object") groups ->
  extendComponents (extendComponents components groups).1 groups
  = extendComponents components groups.
Proof.
  intros H. rewrite !extendComponents_all_objects by done. simpl. f_equal.
  apply map_eq. intros k. rewrite !merge_all_lookup.
  by destruct (last_binding k groups).
Qed.

Lemma extend_twice_is_once_witness :
  extendComponents
    (extendComponents ∅ [VObj [("Header", VFun 1)]; VObj [("Header", VFun 2)]]).1
    [VObj [("Header", VFun 1)]; VObj [("Header", VFun 2)]]
  = extendComponents ∅ [VObj [("Header", VFun 1)]; VObj [("Header", VFun 2)]].
Proof.
  apply (extend_twice_is_once ∅ [VObj [("Header", VFun 1)]; VObj [("Header", VFun 2)]]).
  repeat constructor.
Defined.

(** X9.  Two groups that share no key can be registered in either order:
    the resulting registry is the same. *)
Theorem extend_commutes_on_disjoint (components : gmap string jsval) (a b : jsval) :
  typeof a = "object" -> typeof b = "object" ->
  (forall k, ~ (is_Some (own_lookup k (own_props a))
                /\ is_Some (own_lookup k (own_props b)))) ->
  extendComponents components [a; b] = extendComponents components [b; a].
Proof.
  intros Ha Hb Hdisjoint.
  rewrite !extendComponents_all_objects by (by repeat constructor). f_equal.
  apply map_eq. intros k. rewrite !merge_all_lookup. simpl.
  specialize (Hdisjoint k). rewrite <- !last_own_is_Some in Hdisjoint.
  destruct (last_own k (own_props a)), (last_own k (own_props b)); try done.
  exfalso. apply Hdisjoint. split; by eexists.
Qed.

Lemma extend_commutes_on_disjoint_witness :
  extendComponents {["Old" := VFun 0]}
    [VObj [("Header", VFun 1)]; VObj [("Footer", VFun 2)]]
  = extendComponents {["Old" := VFun 0]}
      [VObj [("Footer", VFun 2)]; VObj [("Header", VFun 1)]].
Proof.
  apply (extend_commutes_on_disjoint {["Old" := VFun 0]}
           (VObj [("Header", VFun 1)]) (VObj [("Footer", VFun 2)]));
    [reflexivity|reflexivity|].
  intros k [[v1 H1] [v2 H2]]. simpl in H1, H2.
  destruct (String.eqb_spec k "Header") as [->|_]; [discriminate H2|discriminate H1].
Defined.

(** X10.  One call with several groups does what successive calls do, as
    long as the groups of the earlier calls pass the [typeof] test. *)
Theorem extend_in_one_call_or_several (components : gmap string jsval)
    (groups1 groups2 : list jsval) :
  Forall (fun v => typeof v = "object") groups1 ->
  extendComponents components (groups1 ++ groups2)
  = extendComponents (extendComponents components groups1).1 groups2.
Proof.
  intros H. rewrite extendComponents_objects by done.
  by rewrite (extendComponents_all_objects components groups1).
Qed.

Lemma extend_in_one_call_or_several_witness :
  extendComponents ∅ ([VObj [("Header", VFun 1)]] ++ [VStr "x"; VObj [("F", VFun 2)]])
  = extendComponents (extendComponents ∅ [VObj [("Header", VFun 1)]]).1
      [VStr "x"; VObj [("F", VFun 2)]].
Proof.
  apply (extend_in_one_call_or_several ∅ [VObj [("Header", VFun 1)]]
           [VStr "x"; VObj [("F", VFun 2)]]).
  repeat constructor.
Defined.

(** X11.  Extension never unregisters: a name that is in the registry is
    still in it after any call, also one that throws. *)
Theorem extend_keeps_registered (arguments : list jsval) :
  forall (components : gmap string jsval) k,
    is_Some (components !! k) ->
    is_Some ((extendComponents components arguments).1 !! k).
Proof.
  induction arguments as [|g rest IH]; intros components k Hk; [done|].
  simpl. destruct (negb (String.eqb (typeof g) "object")); [done|].
  apply IH. unfold Object_assign. rewrite assign_props_lookup.
  by destruct (last_own k (own_props g)).
Qed.

Lemma extend_keeps_registered_witness :
  is_Some ((extendComponents {["Header" := VFun 0]}
              [VObj [("Footer", VFun 1)]; VNum 3]).1 !! "Header").
Proof.
  apply (extend_keeps_registered [VObj [("Footer", VFun 1)]; VNum 3]
           {["Header" := VFun 0]} "Header").
  by eexists.
Defined.

Lemma last_own_imap_None (f : nat -> jsval -> string * jsval)
    (items : list jsval) k :
  (forall j v, (f j v).1 <> k) ->
  last_own k (imap f items) = None.
Proof.
  revert f. induction items as [|x items IH]; intros f Hf; [reflexivity|].
  simpl. destruct (f 0 x) as [k' v] eqn:E.
  rewrite (IH (f ∘ S)) by (intros j w; apply Hf).
  rewrite (proj2 (String.eqb_neq k k')); [reflexivity|].
  intros ->. apply (Hf 0 x). by rewrite E.
Qed.

Lemma last_own_imap (f : nat -> jsval -> string * jsval) (g : nat -> string)
    (items : list jsval) i :
  (forall j v, f j v = (g j, v)) ->
  Inj (=) (=) g ->
  last_own (g i) (imap f items) = items !! i.
Proof.
  revert f g i.
  induction items as [|x items IH]; intros f g i Hf Hinj; [reflexivity|].
  simpl. rewrite Hf. destruct i as [|i].
  - rewrite (last_own_imap_None (f ∘ S)).
    + by rewrite String.eqb_refl.
    + intros j w. simpl. rewrite Hf. simpl.
      intros Hj. apply Hinj in Hj. discriminate Hj.
  - assert (Htail : last_own (g (S i)) (imap (f ∘ S) items) = items !! i).
    { apply (IH (f ∘ S) (g ∘ S) i).
      - intros j w. simpl. apply Hf.
      - intros a c Hac. simpl in Hac. apply Hinj in Hac. by injection Hac. }
    rewrite Htail. simpl. destruct (items !! i); [reflexivity|].
    rewrite (proj2 (String.eqb_neq (g (S i)) (g 0))); [reflexivity|].
    intros Hg. apply Hinj in Hg. discriminate Hg.
Qed.

(** X12.  An array passes the [typeof] test of [extendComponents]: its
    elements are registered under their indices, written in decimal. *)
Theorem extend_with_array_registers_indices (components : gmap string jsval)
    (items : list jsval) (i : nat) (Component : jsval) :
  items !! i = Some Component ->
  extendComponents components [VArr items]
  = (Object_assign components (VArr items), Normal tt)
  /\ Object_assign components (VArr items) !! pretty i = Some Component.
Proof.
  intros Hi. split; [reflexivity|].
  unfold Object_assign. rewrite assign_props_lookup. simpl. unfold index_props.
  rewrite (last_own_imap _ pretty items i).
  - by rewrite Hi.
  - done.
  - apply _.
Qed.

Lemma extend_with_array_registers_indices_witness :
  extendComponents ∅ [VArr [VFun 7; VFun 8]]
  = (Object_assign ∅ (VArr [VFun 7; VFun 8]), Normal tt)
  /\ Object_assign ∅ (VArr [VFun 7; VFun 8]) !! "1" = Some (VFun 8).
Proof.
  apply (extend_with_array_registers_indices ∅ [VFun 7; VFun 8] 1 (VFun 8)).
  reflexivity.
Defined.

Section RegisterAndRender.

Variable renderToString : jsval -> jsval -> string.
Variable call_function : nat -> list jsval -> result jsval.
Variable ToString_object : jsval -> result string.
Variable Object_prototype : string -> option jsval.

(** X13.  What [components] registers, the bridge renders: after a call with
    one group, on a registry and a group without a property named
    [hasOwnProperty], the bridge asked for a name of the group renders the
    component the group gives it, and logs nothing. *)
Theorem registered_component_renders (components : gmap string jsval)
    (group : list (string * jsval)) (n : string) (Component props : jsval) :
  components !! "hasOwnProperty" = None ->
  own_lookup "hasOwnProperty" group = None ->
  last_own n group = Some Component ->
  renderReactComponentToString renderToString call_function Object_prototype
    (extendComponents components [VObj group]).1 n props
  = Normal (VStr (renderToString Component props), []).
Proof.
  intros Hplain Hgroup Hn. simpl.
  apply bridge_found; unfold Object_assign; rewrite assign_props_lookup; simpl.
  - destruct (last_own "hasOwnProperty" group) eqn:E; [|done].
    assert (is_Some (own_lookup "hasOwnProperty" group)) as [? H]
      by (apply last_own_is_Some; by eexists).
    congruence.
  - by rewrite Hn.
Qed.

End RegisterAndRender.

Lemma registered_component_renders_witness :
  sample_bridge (extendComponents ∅ [VObj [("FormattedDate", VFun 3)]]).1
    "FormattedDate" (VObj [("start", VStr "2018-07-02")])
  = Normal (VStr "<h1>Hello</h1>", []).
Proof.
  apply (registered_component_renders sample_renderToString sample_call_function
           sample_Object_prototype ∅ [("FormattedDate", VFun 3)] "FormattedDate"
           (VFun 3) (VObj [("start", VStr "2018-07-02")]));
    reflexivity.
Defined.

(** ** The rendered fragment *)

Lemma own_lookup_NoDup (props : list (string * jsval)) k v :
  NoDup props.*1 -> (k, v) ∈ props -> own_lookup k props = Some v.
Proof.
  induction props as [|[k' v'] rest IH]; intros Hnd Hin; [by apply elem_of_nil in Hin|].
  simpl in *. apply NoDup_cons in Hnd as [Hfresh Hnd].
  apply elem_of_cons in Hin as [Heq|Hin].
  - injection Heq as -> ->. by rewrite String.eqb_refl.
  - destruct (String.eqb_spec k k') as [->|_]; [|by apply IH].
    exfalso. apply Hfresh. apply list_elem_of_fmap. by exists (k', v).
Qed.

Section Fragment.

Variable renderToString : jsval -> jsval -> string.
Variable call_function : nat -> list jsval -> result jsval.
Variable ToString_object : jsval -> result string.
Variable Object_prototype : string -> option jsval.

Abbreviation loop := (attribute_loop call_function ToString_object Object_prototype).
Abbreviation opening := (opening_tag call_function ToString_object Object_prototype).
Abbreviation closing := (closing_tag ToString_object Object_prototype).
Abbreviation rendering :=
  (render_tag renderToString call_function ToString_object Object_prototype).

Lemma attribute_loop_strings (own : string -> option jsval)
    (keys : list (string * jsval)) :
  own "hasOwnProperty" = None ->
  (forall k v, (k, v) ∈ keys -> own k = Some v /\ exists s, v = VStr s) ->
  forall __o, loop own keys __o = Normal (__o +:+ attrs_markup keys).
Proof.
  intros Hplain. induction keys as [|[k v] rest IH]; intros Hkeys __o.
  - simpl. by rewrite str_app_nil_r.
  - destruct (Hkeys k v) as [Hown [s ->]]; [by left|].
    simpl. unfold call_hasOwnProperty. rewrite Hplain. simpl.
    rewrite bool_decide_eq_true_2 by (rewrite Hown; by eexists).
    simpl. destruct (String.eqb k "tag"); simpl.
    + rewrite IH by (intros; apply Hkeys; by right). reflexivity.
    + unfold get_property. rewrite Hown. simpl.
      rewrite IH by (intros; apply Hkeys; by right).
      unfold attribute, attr_open. by rewrite !str_app_assoc.
Qed.

(** X14.  For a container object whose properties are all strings, among
    them [tag], and none named [hasOwnProperty]: the opening tag is the
    element name, then every property but [tag] as an attribute, in the
    order of the object and with the first double quote of its value
    escaped, then the component attribute, then the props attribute. *)
Theorem opening_tag_of_string_container (n : string) (props : jsval) (text : string)
    (cprops : list (string * jsval)) (t : string) :
  NoDup cprops.*1 ->
  Forall (fun kv => exists s, kv.2 = VStr s) cprops ->
  own_lookup "hasOwnProperty" cprops = None ->
  own_lookup "tag" cprops = Some (VStr t) ->
  JSON_stringify props = Some text ->
  opening n props (VObj cprops)
  = Normal ("<" +:+ t +:+ attrs_markup cprops
            +:+ attribute "data-react-component" n
            +:+ attribute "data-react-props" (replace_all_dq text) +:+ ">").
Proof.
  intros Hnd Hstr Hplain Htag Htext. unfold opening_tag. simpl enumerable_props.
  unfold get_property at 1. rewrite Htag, Htext. simpl.
  rewrite attribute_loop_strings; [| done |].
  - simpl. unfold attribute, attr_open. by rewrite !str_app_assoc.
  - intros k v Hin. split; [by apply own_lookup_NoDup|].
    rewrite Forall_forall in Hstr. apply (Hstr (k, v) Hin).
Qed.

End Fragment.

Lemma opening_tag_of_string_container_witness :
  opening_tag sample_call_function sample_ToString_object sample_Object_prototype
    "HelloMessage" (VObj []) (VObj [("tag", VStr "div"); ("class", VStr "foo");
                                    ("id", VStr "hello")])
  = Normal ("<" +:+ "div"
            +:+ attrs_markup [("tag", VStr "div"); ("class", VStr "foo");
                              ("id", VStr "hello")]
            +:+ attribute "data-react-component" "HelloMessage"
            +:+ attribute "data-react-props" (replace_all_dq "{}") +:+ ">").
Proof.
  apply (opening_tag_of_string_container sample_call_function sample_ToString_object
           sample_Object_prototype "HelloMessage" (VObj []) "{}"
           [("tag", VStr "div"); ("class", VStr "foo"); ("id", VStr "hello")] "div").
  - apply (bool_decide_unpack (NoDup ["tag"; "class"; "id"])). vm_compute. exact I.
  - repeat (constructor; [by eexists|]). constructor.
  - reflexivity.
  - reflexivity.
  - reflexivity.
Defined.

Lemma has_dq_count s : has_dq s = true <-> 1 <= count_dq s.
Proof.
  induction s as [|c s IH]; simpl; [split; [discriminate|lia]|].
  destruct (Ascii.eqb c dqc); simpl; [split; [lia|done]|exact IH].
Qed.

(** X15.  Escaping the first double quote is enough exactly for the values
    with at most one: the attribute value the loop writes is free of double
    quotes if and only if the property value holds no more than one. *)
Theorem first_quote_escape_suffices (s : string) :
  has_dq (replace_first_dq s) = false <-> count_dq s <= 1.
Proof.
  induction s as [|c s IH]; simpl; [split; [lia|done]|].
  destruct (Ascii.eqb c dqc) eqn:E.
  - unfold quot. rewrite !str_app_cons, str_app_nil_l. simpl.
    pose proof (has_dq_count s) as [H1 H2].
    destruct (has_dq s) eqn:Hd.
    + split; [discriminate|]. intros H. specialize (H1 eq_refl). lia.
    + split; [intros _|done].
      destruct (count_dq s) as [|m]; [lia|].
      assert (false = true) as Habs by (apply H2; lia). discriminate Habs.
  - simpl. rewrite E. simpl. exact IH.
Qed.

Lemma is_digit_pretty_N_char x : is_digit (pretty_N_char x) = true.
Proof. unfold pretty_N_char. by repeat case_match. Qed.

Lemma pretty_N_go_digit x : forall s,
  starts_with_digit s = true -> starts_with_digit (pretty_N_go x s) = true.
Proof.
  induction (N.lt_wf_0 x) as [x _ IH]; intros s Hs.
  destruct (decide (x = 0)%N) as [->|Hx]; [by rewrite pretty_N_go_0|].
  rewrite pretty_N_go_step by lia.
  apply IH; [apply N.div_lt; lia|]. simpl. apply is_digit_pretty_N_char.
Qed.

Lemma pretty_nat_digit (i : nat) : starts_with_digit (pretty i) = true.
Proof.
  unfold pretty, pretty_nat, pretty, pretty_N.
  destruct (decide (N.of_nat i = 0)%N) as [_|Hx]; [reflexivity|].
  rewrite pretty_N_go_step by lia.
  apply pretty_N_go_digit. simpl. apply is_digit_pretty_N_char.
Qed.

Lemma own_lookup_char_props k s : forall i,
  starts_with_digit k = false -> own_lookup k (char_props i s) = None.
Proof.
  induction s as [|c s IH]; intros i Hk; [reflexivity|].
  simpl. rewrite IH by done.
  destruct (String.eqb_spec k (pretty i)) as [->|_]; [|reflexivity].
  by rewrite pretty_nat_digit in Hk.
Qed.

Lemma char_props_keys s : forall i,
  (char_props i s).*1 = pretty <$> seq i (String.length s).
Proof.
  induction s as [|c s IH]; intros i; [reflexivity|].
  simpl. by rewrite IH.
Qed.

Lemma char_props_NoDup s i : NoDup (char_props i s).*1.
Proof.
  rewrite char_props_keys. apply NoDup_fmap; [apply _|apply NoDup_seq].
Qed.

Lemma char_props_strings s : forall i k v,
  (k, v) ∈ char_props i s -> exists c, v = VStr c.
Proof.
  induction s as [|c s IH]; intros i k v Hin; [by apply elem_of_nil in Hin|].
  simpl in Hin. apply elem_of_cons in Hin as [Heq|Hin]; [|by eapply IH].
  injection Heq as _ ->. by eexists.
Qed.

Section FragmentShape.

Variable renderToString : jsval -> jsval -> string.
Variable call_function : nat -> list jsval -> result jsval.
Variable ToString_object : jsval -> result string.
Variable Object_prototype : string -> option jsval.

Abbreviation loop' := (attribute_loop call_function ToString_object Object_prototype).
Abbreviation opening' := (opening_tag call_function ToString_object Object_prototype).
Abbreviation closing' := (closing_tag ToString_object Object_prototype).
Abbreviation rendering' :=
  (render_tag renderToString call_function ToString_object Object_prototype).

Lemma attribute_loop_app own (a b : list (string * jsval)) : forall __o,
  loop' own (a ++ b) __o = (o1 ← loop' own a __o; loop' own b o1).
Proof.
  induction a as [|[k v] a IH]; intros __o; [reflexivity|].
  simpl. destruct (call_hasOwnProperty call_function own k) as [isOwn|msg];
    [|reflexivity].
  simpl. destruct (isOwn && negb (String.eqb k "tag")); [|apply IH].
  destruct (call_replace call_function Object_prototype (get_property Object_prototype own k))
    as [val|msg]; [|reflexivity].
  simpl. destruct (to_str ToString_object val) as [vals|msg]; [|reflexivity].
  simpl. apply IH.
Qed.

Lemma attribute_loop_extends own (keys : list (string * jsval)) : forall __o o',
  loop' own keys __o = Normal o' -> exists attrs, o' = __o +:+ attrs.
Proof.
  induction keys as [|[k v] keys IH]; intros __o o' H.
  - injection H as <-. exists "". by rewrite str_app_nil_r.
  - simpl in H. destruct (call_hasOwnProperty call_function own k) as [isOwn|msg];
      [|discriminate H].
    simpl in H. destruct (isOwn && negb (String.eqb k "tag")); [|by apply IH].
    destruct (call_replace call_function Object_prototype
                (get_property Object_prototype own k)) as [val|msg]; [|discriminate H].
    simpl in H. destruct (to_str ToString_object val) as [vals|msg]; [|discriminate H].
    simpl in H. apply IH in H as [attrs ->].
    eexists. rewrite !str_app_assoc. reflexivity.
Qed.

(** X16.  A container property other than [tag] whose value is no string and
    no object (a number, a boolean, [null], an array, a function) aborts
    the rendering of the tag: the attribute loop throws a TypeError when it
    comes to it. *)
Theorem non_string_attribute_throws (components : gmap string jsval) (n : string)
    (propsArg : jsval) (text : string) (pre post : list (string * jsval))
    (k : string) (v : jsval) (t : string) :
  NoDup (pre ++ (k, v) :: post).*1 ->
  Forall (fun kv => exists s, kv.2 = VStr s) pre ->
  own_lookup "hasOwnProperty" (pre ++ (k, v) :: post) = None ->
  own_lookup "tag" (pre ++ (k, v) :: post) = Some (VStr t) ->
  k <> "tag" ->
  has_no_replace v = true ->
  JSON_stringify (default_props propsArg) = Some text ->
  exists msg,
    rendering' components n propsArg (VObj (pre ++ (k, v) :: post)) = Throw msg.
Proof.
  intros Hnd Hpre Hplain Htag Hk Hv Htext.
  unfold render_tag, opening_tag.
  change (default_container (VObj (pre ++ (k, v) :: post)))
    with (VObj (pre ++ (k, v) :: post)).
  simpl enumerable_props. unfold get_property at 1. rewrite Htag, Htext. simpl.
  rewrite attribute_loop_app.
  rewrite attribute_loop_strings; [|done|].
  - simpl. unfold call_hasOwnProperty. rewrite Hplain. simpl.
    assert (Hown : own_lookup k (pre ++ (k, v) :: post) = Some v).
    { apply own_lookup_NoDup; [done|]. apply elem_of_app. right. by left. }
    rewrite bool_decide_eq_true_2 by (rewrite Hown; by eexists).
    rewrite (proj2 (String.eqb_neq k "tag")) by done. simpl.
    unfold get_property. rewrite Hown.
    destruct v; try discriminate Hv; simpl; by eexists.
  - intros k' v' Hin. split.
    + apply own_lookup_NoDup; [done|]. apply elem_of_app. by left.
    + rewrite Forall_forall in Hpre. apply (Hpre (k', v') Hin).
Qed.

(** X17.  A container given as a string, as in [in 'div'], does not name the
    element: the element name is the text [undefined], and the characters
    of the string become attributes named by their positions. *)
Theorem string_container_is_no_tag_name (s : string) (n : string) (props : jsval)
    (text : string) :
  s <> "" ->
  Object_prototype "tag" = None ->
  JSON_stringify props = Some text ->
  default_container (VStr s) = VStr s
  /\ opening' n props (VStr s)
     = Normal ("<undefined" +:+ attrs_markup (char_props 0 s)
               +:+ attribute "data-react-component" n
               +:+ attribute "data-react-props" (replace_all_dq text) +:+ ">")
  /\ closing' (VStr s) = Normal "</undefined>".
Proof.
  intros Hs Hproto Htext.
  assert (Htag : get_property Object_prototype
                   (fun k => own_lookup k (char_props 0 s)) "tag" = VUndefined).
  { unfold get_property. rewrite own_lookup_char_props by reflexivity.
    by rewrite Hproto. }
  split; [|split].
  - unfold default_container. simpl.
    by rewrite (proj2 (String.eqb_neq s "")).
  - unfold opening_tag. simpl enumerable_props. rewrite Htag, Htext. simpl.
    rewrite attribute_loop_strings.
    + simpl. unfold attribute, attr_open. by rewrite !str_app_assoc.
    + by apply own_lookup_char_props.
    + intros k v Hin. split.
      * apply own_lookup_NoDup; [apply char_props_NoDup|done].
      * by eapply char_props_strings.
  - unfold closing_tag. simpl enumerable_props. by rewrite Htag.
Qed.

(** X18.  Every fragment the emitted function returns has one shape: the
    opening bracket and the element name, attributes, the component
    attribute, the props attribute, whose value is the JSON text of the
    defaulted props with every double quote escaped and holds no double
    quote, the closing bracket, an inner text, and the closing tag of the
    same element name. *)
Theorem fragment_shape (components : gmap string jsval) (n : string)
    (propsArg containerArg : jsval) (fragment : string) (log : list string) :
  rendering' components n propsArg containerArg = Normal (fragment, log) ->
  exists t attrs text inner,
    JSON_stringify (default_props propsArg) = Some text
    /\ has_dq (replace_all_dq text) = false
    /\ fragment
       = "<" +:+ t +:+ attrs
         +:+ attribute "data-react-component" n
         +:+ attribute "data-react-props" (replace_all_dq text) +:+ ">"
         +:+ inner +:+ "</" +:+ t +:+ ">".
Proof.
  intros H. unfold render_tag, opening_tag, closing_tag in H.
  destruct (to_str ToString_object
              (get_property Object_prototype
                 (fun k => own_lookup k (enumerable_props (default_container containerArg)))
                 "tag")) as [t|msg]; [|discriminate H].
  simpl in H.
  destruct (JSON_stringify (default_props propsArg)) as [text|]; [|discriminate H].
  simpl in H.
  destruct (loop' _ _ _) as [o'|msg] eqn:Hloop; [|discriminate H].
  apply attribute_loop_extends in Hloop as [attrs ->].
  simpl in H.
  destruct (renderReactComponentToString _ _ _ _ _ _) as [[markup log']|msg];
    [|discriminate H].
  simpl in H. destruct (to_str ToString_object markup) as [inner|msg]; [|discriminate H].
  simpl in H. injection H as <- <-.
  exists t, attrs, text, inner. split; [done|]. split; [apply has_dq_replace_all|].
  unfold attribute, attr_open. by rewrite !str_app_assoc.
Qed.

(** X19.  Without usable clauses the defaults apply: for props and a
    container that are falsy ([undefined], [null], [false], [0], the empty
    string), a registered component is rendered with the empty object as
    props, in a [div] that carries the component name and the props [{}]. *)
Theorem falsy_arguments_take_defaults (components : gmap string jsval) (n : string)
    (propsArg containerArg Component : jsval) :
  truthy propsArg = false ->
  truthy containerArg = false ->
  components !! "hasOwnProperty" = None ->
  components !! n = Some Component ->
  rendering' components n propsArg containerArg
  = Normal ("<div" +:+ attribute "data-react-component" n
            +:+ attribute "data-react-props" "{}" +:+ ">"
            +:+ renderToString Component (VObj []) +:+ "</div>", []).
Proof.
  intros Hp Hc Hplain Hown.
  transitivity (rendering' components n (VObj []) VUndefined).
  - unfold render_tag, default_props, default_container. by rewrite Hp, Hc.
  - by rewrite (render_tag_default renderToString call_function ToString_object
                  Object_prototype components n [] "{}" Component).
Qed.

(** X20.  A function given as props aborts the rendering: [JSON.stringify]
    returns [undefined] for it, and the emitted code calls [replace] on
    that. *)
Theorem function_props_throw (components : gmap string jsval) (n : string)
    (f : nat) (containerArg : jsval) (t : string) :
  to_str ToString_object
    (get_property Object_prototype
       (fun k => own_lookup k (enumerable_props (default_container containerArg)))
       "tag") = Normal t ->
  rendering' components n (VFun f) containerArg
  = Throw "TypeError: Cannot read properties of undefined (reading 'replace')".
Proof.
  intros Htag. unfold render_tag, opening_tag. by rewrite Htag.
Qed.

End FragmentShape.

Lemma non_string_attribute_throws_witness :
  exists msg,
    sample_render sample_registry "Header" VUndefined
      (VObj ([("tag", VStr "div")] ++ ("tabindex", VNum 1) :: [("id", VStr "x")]))
    = Throw msg.
Proof.
  apply (non_string_attribute_throws sample_renderToString sample_call_function
           sample_ToString_object sample_Object_prototype sample_registry "Header"
           VUndefined "{}" [("tag", VStr "div")] [("id", VStr "x")]
           "tabindex" (VNum 1) "div").
  - apply (bool_decide_unpack (NoDup ["tag"; "tabindex"; "id"])). vm_compute. exact I.
  - repeat (constructor; [by eexists|]). constructor.
  - reflexivity.
  - reflexivity.
  - discriminate.
  - reflexivity.
  - reflexivity.
Defined.

Lemma string_container_is_no_tag_name_witness :
  default_container (VStr "div") = VStr "div"
  /\ opening_tag sample_call_function sample_ToString_object sample_Object_prototype
       "HelloMessage" (VObj []) (VStr "div")
     = Normal ("<undefined" +:+ attrs_markup (char_props 0 "div")
               +:+ attribute "data-react-component" "HelloMessage"
               +:+ attribute "data-react-props" (replace_all_dq "{}") +:+ ">")
  /\ closing_tag sample_ToString_object sample_Object_prototype (VStr "div")
     = Normal "</undefined>".
Proof.
  apply (string_container_is_no_tag_name sample_call_function sample_ToString_object
           sample_Object_prototype "div" "HelloMessage" (VObj []) "{}");
    [discriminate|reflexivity|reflexivity].
Defined.

(** The attributes that the string [div] gives. *)
Example string_container_attributes :
  attrs_markup (char_props 0 "div")
  = " 0=" +:+ dq +:+ "d" +:+ dq +:+ " 1=" +:+ dq +:+ "i" +:+ dq
    +:+ " 2=" +:+ dq +:+ "v" +:+ dq.
Proof. reflexivity. Qed.

Lemma fragment_shape_witness :
  exists t attrs text inner,
    JSON_stringify (default_props (VObj [("name", VStr "John")])) = Some text
    /\ has_dq (replace_all_dq text) = false
    /\ "<p class=" +:+ dq +:+ "foo" +:+ dq
       +:+ " data-react-component=" +:+ dq +:+ "Header" +:+ dq
       +:+ " data-react-props=" +:+ dq
       +:+ "{&quot;name&quot;:&quot;John&quot;}" +:+ dq +:+ ">"
       +:+ "<h1>Hello</h1>" +:+ "</p>"
       = "<" +:+ t +:+ attrs
         +:+ attribute "data-react-component" "Header"
         +:+ attribute "data-react-props" (replace_all_dq text) +:+ ">"
         +:+ inner +:+ "</" +:+ t +:+ ">".
Proof.
  apply (fragment_shape sample_renderToString sample_call_function
           sample_ToString_object sample_Object_prototype sample_registry "Header"
           (VObj [("name", VStr "John")])
           (VObj [("tag", VStr "p"); ("class", VStr "foo")]) _ []).
  reflexivity.
Defined.

Lemma falsy_arguments_take_defaults_witness :
  sample_render sample_registry "Header" (VNum 0) (VStr "")
  = Normal ("<div" +:+ attribute "data-react-component" "Header"
            +:+ attribute "data-react-props" "{}" +:+ ">"
            +:+ sample_renderToString (VFun 0) (VObj []) +:+ "</div>", []).
Proof.
  apply (falsy_arguments_take_defaults sample_renderToString sample_call_function
           sample_ToString_object sample_Object_prototype sample_registry "Header"
           (VNum 0) (VStr "") (VFun 0)); reflexivity.
Defined.

Lemma function_props_throw_witness :
  sample_render sample_registry "Header" (VFun 5) VUndefined
  = Throw "TypeError: Cannot read properties of undefined (reading 'replace')".
Proof.
  apply (function_props_throw sample_renderToString sample_call_function
           sample_ToString_object sample_Object_prototype sample_registry "Header"
           5 VUndefined "div").
  reflexivity.
Defined.

(** ** Enabling the tag *)

Section UseTagProperties.

Variable engine : Type.
Variable setExtension : engine -> string -> module_function -> engine.
Variable setTag :
  engine -> string -> module_function -> module_function -> bool -> bool -> engine.
Variable extension_of : engine -> string -> option module_function.
Variable tag_of :
  engine -> string -> option (module_function * module_function * bool * bool).

Hypothesis extension_stored : forall e k f,
  extension_of (setExtension e k f) k = Some f.
Hypothesis tag_stored : forall e k p c e1 b,
  tag_of (setTag e k p c e1 b) k = Some (p, c, e1, b).
Hypothesis setTag_keeps_extensions : forall e k p c e1 b k',
  extension_of (setTag e k p c e1 b) k' = extension_of e k'.

(** X21.  On an engine that stores what is registered, [useTag] registers
    the bridge as the extension named [react] whatever the custom name, and
    that is the name under which the emitted code calls it; the tag itself,
    with this module's parser and compiler and as a tag without end tag,
    goes under the custom name, or under [react] when the custom name is
    absent or empty. *)
Theorem useTag_registers (swig : engine) (customName : option string) :
  extension_of (useTag engine setExtension setTag swig customName) name
    = Some FnExtension
  /\ tag_of (useTag engine setExtension setTag swig customName) (tag_name customName)
     = Some (FnParse, FnCompile, false, false)
  /\ tag_name None = name /\ tag_name (Some "") = name
  /\ (forall s, s <> "" -> tag_name (Some s) = s)
  /\ forall componentName props container,
       occurs_in ("__o += _ext." +:+ name +:+ "('" +:+ show componentName +:+ "', props);")
         (emit componentName props container).
Proof.
  unfold useTag. repeat split.
  - by rewrite setTag_keeps_extensions, extension_stored.
  - by rewrite tag_stored.
  - intros s Hs. unfold tag_name. by rewrite (proj2 (String.eqb_neq s "")).
  - intros componentName0 props container.
    exists ("_output += (function(props, container) {"
            +:+ "props = props || {};"
            +:+ "container = container || { tag: 'div' };"
            +:+ "var __o = '<' + container.tag;"
            +:+ "var __p = JSON.stringify(props).replace(/" +:+ dq +:+ "/g, " +:+ dq
            +:+ "&quot;" +:+ dq +:+ ");"
            +:+ "for (var key in container) {"
            +:+ "var val;"
            +:+ "if (container.hasOwnProperty(key) && key !== 'tag') {"
            +:+ "val = container[key].replace('" +:+ dq +:+ "', '&quot;');"
            +:+ "__o += ' ' + key + '=" +:+ dq +:+ "' + val + '" +:+ dq +:+ "';"
            +:+ "}"
            +:+ "}"
            +:+ "__o += ' data-react-component=" +:+ dq +:+ show componentName0
            +:+ dq +:+ "';"
            +:+ "__o += ' data-react-props=" +:+ dq +:+ "' + __p + '" +:+ dq +:+ ">';").
    eexists. unfold emit. rewrite !str_app_assoc. reflexivity.
Qed.

End UseTagProperties.

Lemma useTag_registers_witness :
  extensions (useTag sample_engine sample_setExtension sample_setTag
                (SampleEngine ∅ ∅) (Some "component")) !! "react"
    = Some FnExtension
  /\ tags (useTag sample_engine sample_setExtension sample_setTag
             (SampleEngine ∅ ∅) (Some "component")) !! "component"
     = Some (FnParse, FnCompile, false, false).
Proof.
  destruct (useTag_registers sample_engine sample_setExtension sample_setTag
              (fun e k => extensions e !! k) (fun e k => tags e !! k)
              (fun e k f => lookup_insert_eq (extensions e) k f)
              (fun e k p c e1 b => lookup_insert_eq (tags e) k (p, c, e1, b))
              (fun e k p c e1 b k' => eq_refl)
              (SampleEngine ∅ ∅) (Some "component")) as (Hext & Htag & _).
  split; [exact Hext|exact Htag].
Defined.

(** ** From the template to the fragment *)

Section EndToEnd.

Variable renderToString : jsval -> jsval -> string.
Variable call_function : nat -> list jsval -> result jsval.
Variable ToString_object : jsval -> result string.
Variable Object_prototype : string -> option jsval.

(** X22.  The tag with a quoted component name and nothing else, for a name
    that the emitted literals denote and that is registered: the parser
    pushes the bare name, [compile] emits the call with [undefined] for
    both props and container, and running it gives a [div] with the
    component attribute, the props attribute [{}] and the markup of the
    component rendered with the empty object. *)
Theorem bare_tag_end_to_end (q1 q2 : ascii) (x : string)
    (components : gmap string jsval) (Component compiler content parents : jsval)
    (o : list (string * jsval)) :
  is_quote q1 = true -> is_quote q2 = true ->
  literal_safe x = true ->
  components !! "hasOwnProperty" = None ->
  components !! x = Some Component ->
  out (handle (parse_init [])
         (Token STRING (String q1 (x +:+ String q2 EmptyString)))).1 = [x]
  /\ compile compiler [x] content parents (VObj o)
     = Some (Normal (emit (Some x) None None))
  /\ run_emitted renderToString call_function ToString_object Object_prototype
       components x VUndefined VUndefined
     = Some (Normal ("<div" +:+ attribute "data-react-component" x
                     +:+ attribute "data-react-props" "{}" +:+ ">"
                     +:+ renderToString Component (VObj []) +:+ "</div>", [])).
Proof.
  intros H1 H2 Hsafe Hplain Hown. split; [|split].
  - unfold handle, on_STRING. simpl. rewrite H1.
    by rewrite (strip_trailing_quote_snoc x q2 H2).
  - reflexivity.
  - unfold run_emitted. rewrite Hsafe. f_equal.
    transitivity (render_tag renderToString call_function ToString_object
                    Object_prototype components x (VObj []) VUndefined);
      [reflexivity|].
    by rewrite (render_tag_default renderToString call_function ToString_object
                  Object_prototype components x [] "{}" Component).
Qed.

(** X23.  Whatever the registry, the bridge, when it does not throw, either
    returns a string of markup and logs nothing, or returns [undefined] and
    logs the one diagnostic that names the component asked for. *)
Theorem bridge_returns_markup_or_logs (components : gmap string jsval)
    (componentName : string) (props v : jsval) (log : list string) :
  renderReactComponentToString renderToString call_function Object_prototype
    components componentName props = Normal (v, log) ->
  (exists markup, v = VStr markup /\ log = [])
  \/ (v = VUndefined /\ log = [missing_component componentName]).
Proof.
  unfold renderReactComponentToString. intros H.
  destruct (call_hasOwnProperty call_function (fun k => components !! k) componentName)
    as [found|msg]; [|discriminate H].
  simpl in H. destruct found; injection H as <- <-.
  - left. by eexists.
  - by right.
Qed.

End EndToEnd.

Lemma bare_tag_end_to_end_witness :
  out (handle (parse_init []) (Token STRING "'Header'")).1 = ["Header"]
  /\ compile VUndefined ["Header"] VUndefined VUndefined (VObj [])
     = Some (Normal (emit (Some "Header") None None))
  /\ run_emitted sample_renderToString sample_call_function sample_ToString_object
       sample_Object_prototype sample_registry "Header" VUndefined VUndefined
     = Some (Normal ("<div" +:+ attribute "data-react-component" "Header"
                     +:+ attribute "data-react-props" "{}" +:+ ">"
                     +:+ sample_renderToString (VFun 0) (VObj []) +:+ "</div>", [])).
Proof.
  apply (bare_tag_end_to_end sample_renderToString sample_call_function
           sample_ToString_object sample_Object_prototype "'"%char "'"%char "Header"
           sample_registry (VFun 0) VUndefined VUndefined VUndefined []);
    reflexivity.
Defined.

Lemma bridge_returns_markup_or_logs_witness :
  (exists markup, VUndefined = VStr markup /\ [missing_component "Missing"] = [])
  \/ (VUndefined = VUndefined
      /\ [missing_component "Missing"] = [missing_component "Missing"]).
Proof.
  apply (bridge_returns_markup_or_logs sample_renderToString sample_call_function
           sample_Object_prototype sample_registry "Missing" (VObj [])
           VUndefined [missing_component "Missing"]).
  reflexivity.
Defined.
